(** * fs.expose.fuse: the FUSE operation adapter over a PyFilesystem backend

    Shallow embedding of [fs/expose/fuse/utils.py] (the error translator
    [_ConvertFSErrors]) and of [fs/expose/fuse/operations.py] (the class
    [PyfilesystemFuseOperations]), followed by the properties of the
    adapter that its specification states.

    Python exceptions are values of type [exception]; an adapter method is
    a computation [st S A] that threads the adapter's state and either returns
    or raises.  The backend filesystem ([self.fs]) and the byte streams it
    hands out are external: they are an interface ([Backend]) whose methods
    may change the backend state and may raise. *)

From Stdlib Require Import ZArith String List Ascii.
From stdpp Require Import base decidable option list strings gmap fin_maps fin_sets.

Local Open Scope Z_scope.
Local Open Scope string_scope.

(** ** errno codes and exception classes *)

(** The symbolic [errno] names the two modules use. *)
Inductive errno : Type :=
  | EPERM | ENOENT | EIO | EBADF | EACCES | EEXIST | ENOTDIR | EISDIR
  | EINVAL | ENOSPC | EROFS | ENOSYS | ENOTEMPTY | ENONET | ENOTSUP
  | ETIMEDOUT.

#[global] Instance errno_eq_dec : EqDecision errno.
Proof. solve_decision. Defined.

(** Exception classes: [KeyError], the classes of [fs.errors] that
    [FILE_ERRORS] lists (bound or commented out), [fuse.FuseOSError] and
    its base, the two built-in classes the adapter can provoke, and any
    other class by name. *)
Inductive exc_class : Type :=
  | KeyError
  | FSError
  | CreateFailed | FilesystemClosed | OperationFailed
  | InsufficientStorage | OperationTimeout | PermissionDenied
  | RemoteConnectionError | RemoveRootError | Unsupported
  | PathError | InvalidPath | InvalidCharsInPath | NoSysPath | NoURL
  | ResourceError | DestinationExists | DirectoryExists | DirectoryNotEmpty
  | FileExists | ResourceInvalid | DirectoryExpected | FileExpected
  | ResourceLocked | ResourceNotFound | ResourceReadOnly
  | IllegalBackReference
  | FuseOSErrorClass | OSErrorClass
  | UnboundLocalError | StopIteration
  | OtherClass (name : string).

#[global] Instance exc_class_eq_dec : EqDecision exc_class.
Proof. solve_decision. Defined.

(** An exception value: its exact class ([type(exc_value)]), the proper
    base classes of that class, and the [errno] argument it was built with
    (only [FuseOSError] has one; [Some None] is [FuseOSError(None)]). *)
Record exception : Type := Exception {
  exc_type : exc_class;
  exc_bases : list exc_class;
  exc_errno : option (option errno)
}.

#[global] Instance exception_eq_dec : EqDecision exception.
Proof. solve_decision. Defined.

(** [isinstance(exc_value, classes)] *)
Definition isinstance (e : exception) (classes : list exc_class) : bool :=
  existsb (fun c => bool_decide (c ∈ exc_type e :: exc_bases e)) classes.

(** [fuse.FuseOSError(code)], a subclass of [OSError]. *)
Definition FuseOSError (code : option errno) : exception :=
  Exception FuseOSErrorClass [OSErrorClass] (Some code).

(** [errors.FileExists(path)]: in [fs.errors] it derives from
    [ResourceError], which derives from [FSError]. *)
Definition FileExists_exc : exception :=
  Exception FileExists [ResourceError; FSError] None.

(** The [KeyError] of a failed [dict] lookup. *)
Definition KeyError_exc : exception := Exception KeyError [] None.

(** The exceptions of the interpreter itself. *)
Definition UnboundLocalError_exc : exception :=
  Exception UnboundLocalError [OtherClass "NameError"] None.
Definition StopIteration_exc : exception := Exception StopIteration [] None.

(** ** utils.py: [_ConvertFSErrors] *)

Module _ConvertFSErrors.

(** [FILE_ERRORS.get(exc_type)]: the dictionary literal, looked up by
    exact class; [None] is what [dict.get] gives for a missing key. *)
Definition FILE_ERRORS_get (exc_type : exc_class) : option errno :=
  match exc_type with
  | KeyError => Some EBADF
  | InsufficientStorage => Some ENOSPC
  | OperationTimeout => Some ETIMEDOUT
  | PermissionDenied => Some EACCES
  | RemoteConnectionError => Some ENONET
  | RemoveRootError => Some EPERM
  | Unsupported => Some ENOTSUP
  | InvalidPath => Some EINVAL
  | InvalidCharsInPath => Some EINVAL
  | DestinationExists => Some EEXIST
  | DirectoryExists => Some EEXIST
  | DirectoryNotEmpty => Some ENOTEMPTY
  | FileExists => Some EEXIST
  | DirectoryExpected => Some ENOTDIR
  | FileExpected => Some EISDIR
  | ResourceNotFound => Some ENOENT
  | ResourceReadOnly => Some EROFS
  | IllegalBackReference => Some EINVAL
  | _ => None
  end.

(** [__exit__] when [exc_type is not None]: the exception that leaves
    the [with] block. *)
Definition __exit__ (exc_value : exception) : exception :=
  if isinstance exc_value [FSError; KeyError]
  then FuseOSError (FILE_ERRORS_get (exc_type exc_value))
  else exc_value.

End _ConvertFSErrors.

(** ** Outcomes and the adapter monad *)

(** A call returns a value or raises. *)
Inductive outcome (A : Type) : Type :=
  | Returns (a : A)
  | Raises (e : exception).
Arguments Returns {A} a.
Arguments Raises {A} e.

Definition raised {A} (r : outcome A) : option exception :=
  match r with Returns _ => None | Raises e => Some e end.

(** [st S A]: a computation over a state [S] that returns or raises; the
    state reached when it raises is kept, as in Python. *)
Definition st (S A : Type) : Type := S -> outcome A * S.

Definition ret {S A} (a : A) : st S A := fun s => (Returns a, s).
Definition raise {S A} (e : exception) : st S A := fun s => (Raises e, s).
Definition bind {S A B} (m : st S A) (k : A -> st S B) : st S B :=
  fun s => match m s with
           | (Returns a, s') => k a s'
           | (Raises e, s') => (Raises e, s')
           end.

Declare Scope py_scope.
Delimit Scope py_scope with py.
Notation "x <- m ;; k" := (bind m (fun x => k))
  (at level 100, m at next level, right associativity) : py_scope.
Notation "m ;;; k" := (bind m (fun _ => k))
  (at level 100, right associativity) : py_scope.

(** [try: body finally: fin]: [fin] always runs; an exception of [fin]
    replaces the outcome of [body]. *)
Definition try_finally {S A} (body : st S A) (fin : st S unit) : st S A :=
  fun s => match body s with
           | (r, s1) => match fin s1 with
                        | (Returns _, s2) => (r, s2)
                        | (Raises e, s2) => (Raises e, s2)
                        end
           end.

(** The decorator [@convert_fs_errors]: the call runs inside
    [with self:], so whatever it raises goes through [__exit__]. *)
Definition convert_fs_errors {S A} (func : st S A) : st S A :=
  fun s => match func s with
           | (Returns a, s') => (Returns a, s')
           | (Raises e, s') => (Raises (_ConvertFSErrors.__exit__ e), s')
           end.

(** ** Python helpers *)

(** [sub in s] on strings: [sub] occurs in [s] as a substring. *)
Fixpoint str_in (sub s : string) : bool :=
  String.prefix sub s ||
  match s with
  | EmptyString => false
  | String _ rest => str_in sub rest
  end.

(** Truth value of an [int]. *)
Definition truthy (n : Z) : bool := negb (Z.eqb n 0).

(** ** operations.py: [_stat_from_info] *)

(** [fs.enums.ResourceType] *)
Module ResourceType.
Inductive t : Type :=
  | unknown | directory | file | character | block_special_file
  | fifo | socket | symlink.
End ResourceType.

#[global] Instance ResourceType_eq_dec : EqDecision ResourceType.t.
Proof. solve_decision. Defined.

(** The namespaces of a [fs.info.Info] that [_stat_from_info] reads.  A
    [datetime] is its number of microseconds since the epoch. *)
Record details_ns : Type := Details {
  accessed : option Z;
  modified : option Z;
  created : option Z;
  metadata_changed : option Z;
  size_ : option Z;
  type_ : ResourceType.t
}.

Record access_ns : Type := Access {
  uid : option Z;
  gid : option Z;
  permissions : option Z      (* [info.permissions.mode] *)
}.

Record Info : Type := MkInfo {
  ns_stat : option (gmap string Z);   (* [info.raw['stat']] *)
  ns_details : option details_ns;
  ns_access : option access_ns;
  name : option string
}.

(** [int(timestamp(dt))]: whole seconds, [int] truncating towards zero
    (the seconds are a float in Python; a [datetime] has microsecond
    resolution, which a float holds exactly enough for the truncation). *)
Definition int_timestamp (dt : Z) : Z := Z.quot dt 1000000.

Definition S_IFDIR : Z := 16384.   (* 0o040000 *)
Definition S_IFREG : Z := 32768.   (* 0o100000 *)
Definition o777 : Z := 511.
Definition o666 : Z := 438.

(** [os.umask(mask)] on the process umask: sets it and returns the
    previous one. *)
Definition os_umask (mask : Z) : st Z Z := fun u => (Returns u, mask).

(** [result[key] = value] when the value is there. *)
Definition set_if_some (key : string) (v : option Z) (result : gmap string Z)
  : gmap string Z :=
  match v with Some x => <[key := x]> result | None => result end.

Definition _stat_from_info (info : Info) : st Z (gmap string Z) :=
  match ns_stat info with
  | Some raw => ret raw
  | None =>
    (umask <- os_umask 0 ;;
     _ <- os_umask umask ;;
     let result : gmap string Z := ∅ in
     let result :=
       match ns_details info with
       | Some d =>
         let result := set_if_some "st_atime" (int_timestamp <$> accessed d) result in
         let result := set_if_some "st_mtime" (int_timestamp <$> modified d) result in
         let result :=
           set_if_some "st_ctime"
             (int_timestamp <$> (match created d with
                                 | Some c => Some c
                                 | None => metadata_changed d
                                 end)) result in
         let result := set_if_some "st_size" (size_ d) result in
         if decide (type_ d = ResourceType.directory)
         then <["st_mode" := S_IFDIR]> result
         else <["st_mode" := S_IFREG]> result
       | None => result
       end in
     let mode := default 0 (result !! "st_mode") in
     let result :=
       match ns_access info with
       | Some a =>
         let result := set_if_some "st_uid" (uid a) result in
         let result := set_if_some "st_gid" (gid a) result in
         match permissions a with
         | Some p => <["st_mode" := Z.lor mode p]> result
         | None =>
           match ns_details info with
           | Some d =>
             if decide (type_ d = ResourceType.directory)
             then <["st_mode" := Z.lor mode (Z.land o777 (Z.lnot umask))]> result
             else <["st_mode" := Z.lor mode (Z.land o666 (Z.lnot umask))]> result
           | None => result
           end
         end
       | None => result
       end in
     let result :=
       match name info with
       | Some n => if str_in n "/" then <["st_nlink" := 2]> result else result
       | None => result
       end in
     ret result)%py
  end.

(** ** operations.py: the constants and the collaborators *)

(** [utils.py] fixes [posix.O_ACCMODE] and [posix.ST_WRITE] itself. *)
Definition O_ACCMODE : Z := 3.
Definition ST_WRITE : Z := 128.

(** The three access modes of [posix] (<fcntl.h>). *)
Definition O_RDONLY : Z := 0.
Definition O_WRONLY : Z := 1.
Definition O_RDWR : Z := 2.

(** The remaining [posix] flag bits differ between platforms. *)
Class PosixFlags : Type := {
  O_APPEND : Z;
  O_TRUNC : Z;
  O_EXCL : Z
}.

(** [fs.path.isparent] and [fs.path.recursepath]. *)
Class FsPath : Type := {
  isparent : string -> string -> bool;
  recursepath : string -> list string
}.

(** The backend filesystem [self.fs] with state [B], and the binary
    streams [fs.openbin] returns, which are references of type [H] into
    that state.  Every method may change the backend and may raise. *)
Class Backend (B H : Type) : Type := {
  fs_validatepath : string -> st B string;
  fs_isdir : string -> st B bool;
  fs_exists : string -> st B bool;
  fs_isempty : string -> st B bool;
  fs_gettype : string -> st B ResourceType.t;
  fs_create : string -> st B bool;
  fs_makedir : string -> st B unit;
  fs_removedir : string -> st B unit;
  fs_remove : string -> st B unit;
  fs_movedir : string -> string -> st B unit;
  fs_move : string -> string -> st B unit;
  fs_openbin : string -> string -> st B H;
  stream_readable : H -> st B bool;
  stream_writable : H -> st B bool;
  stream_seek : H -> Z -> st B Z;
  stream_read : H -> Z -> st B string;
  stream_write : H -> string -> st B Z;
  stream_truncate : H -> Z -> st B Z;
  stream_flush : H -> st B unit;
  stream_close : H -> st B unit
}.

(** The backend calls by name and arguments, for the call log. *)
Inductive call (H : Type) : Type :=
  | Cvalidatepath (path : string)
  | Cisdir (path : string)
  | Cexists (path : string)
  | Cisempty (path : string)
  | Cgettype (path : string)
  | Ccreate (path : string)
  | Cmakedir (path : string)
  | Cremovedir (path : string)
  | Cremove (path : string)
  | Cmovedir (src dst : string)
  | Cmove (src dst : string)
  | Copenbin (path mode : string)
  | Creadable (h : H)
  | Cwritable (h : H)
  | Cseek (h : H) (offset : Z)
  | Cread (h : H) (size : Z)
  | Cwrite (h : H) (data : string)
  | Ctruncate (h : H) (length : Z)
  | Cflush (h : H)
  | Cclose (h : H).
Arguments Cvalidatepath {H}.
Arguments Cisdir {H}.
Arguments Cexists {H}.
Arguments Cisempty {H}.
Arguments Cgettype {H}.
Arguments Ccreate {H}.
Arguments Cmakedir {H}.
Arguments Cremovedir {H}.
Arguments Cremove {H}.
Arguments Cmovedir {H}.
Arguments Cmove {H}.
Arguments Copenbin {H}.
Arguments Creadable {H}.
Arguments Cwritable {H}.
Arguments Cseek {H}.
Arguments Cread {H}.
Arguments Cwrite {H}.
Arguments Ctruncate {H}.
Arguments Cflush {H}.
Arguments Cclose {H}.

(** One entry of the call log: the call and what it raised, if anything. *)
Record event (H : Type) : Type := Ev {
  ev_call : call H;
  ev_raised : option exception
}.
Arguments Ev {H}.
Arguments ev_call {H}.
Arguments ev_raised {H}.

(** A call that moves or removes a resource. *)
Definition is_move {H} (c : call H) : bool :=
  match c with
  | Cmovedir _ _ | Cmove _ _ | Cremove _ | Cremovedir _ => true
  | _ => false
  end.

(** The instance state: [self.descriptors], [self.fs], and (ghost) the
    log of the backend calls made so far. *)
Record adapter (B H : Type) : Type := Adapter {
  descriptors : gmap nat H;
  fs : B;
  calls : list (event H)
}.
Arguments Adapter {B H}.
Arguments descriptors {B H}.
Arguments fs {B H}.
Arguments calls {B H}.

(** [next(x for x in itertools.count(x0) if x not in d)], trying at most
    [fuel] candidates. *)
Fixpoint count_not_in {H} (d : gmap nat H) (fuel x0 : nat) : option nat :=
  match fuel with
  | O => None
  | S fuel' =>
    match d !! x0 with
    | Some _ => count_not_in d fuel' (S x0)
    | None => Some x0
    end
  end.

(** ** operations.py: [PyfilesystemFuseOperations] *)

Section Operations.
Context {B H : Type} `{PosixFlags} `{FsPath} `{Backend B H}.

Local Open Scope py_scope.

(** A method call on [self.fs] or on a stream: runs it on the backend
    state and logs it. *)
Definition invoke {A} (c : call H) (method : st B A) : st (adapter B H) A :=
  fun s =>
    match method (fs s) with
    | (r, b) => (r, Adapter (descriptors s) b (calls s ++ [Ev c (raised r)]))
    end.

(** [self.descriptors[fd]] *)
Definition descriptors_getitem (fd : nat) : st (adapter B H) H :=
  fun s =>
    match descriptors s !! fd with
    | Some h => (Returns h, s)
    | None => (Raises KeyError_exc, s)
    end.

(** [self.descriptors[fd] = h] *)
Definition descriptors_setitem (fd : nat) (h : H) : st (adapter B H) unit :=
  fun s => (Returns tt, Adapter (<[fd := h]> (descriptors s)) (fs s) (calls s)).

(** [self.descriptors.pop(fd)] *)
Definition descriptors_pop (fd : nat) : st (adapter B H) H :=
  fun s =>
    match descriptors s !! fd with
    | Some h => (Returns h, Adapter (delete fd (descriptors s)) (fs s) (calls s))
    | None => (Raises KeyError_exc, s)
    end.

(** [_getfd]: the generator counts from 0; one candidate more than there
    are descriptors is enough ([_getfd_returns] below), so the exhausted
    generator of the last branch never arises. *)
Definition _getfd : st (adapter B H) nat :=
  fun s =>
    match count_not_in (descriptors s) (S (size (descriptors s))) 0 with
    | Some x => (Returns x, s)
    | None => (Raises StopIteration_exc, s)
    end.

(** The mode string [open] computes; [None] when no branch binds [mode]. *)
Definition open_mode (flags : Z) : option string :=
  if Z.eqb (Z.land flags O_ACCMODE) O_WRONLY then
    Some (if truthy (Z.land flags O_APPEND) then "a" else "w")
  else if Z.eqb (Z.land flags O_ACCMODE) O_RDWR then
    Some (if truthy (Z.land flags O_TRUNC) then "w+" else "r+")
  else if Z.eqb (Z.land flags O_ACCMODE) O_RDONLY then
    Some (if truthy (Z.land flags (Z.lor ST_WRITE O_TRUNC)) then "r+" else "r")
  else None.

Definition open (path : string) (flags : Z) : st (adapter B H) nat :=
  convert_fs_errors
    (fd <- _getfd ;;
     mode <- match open_mode flags with
             | Some m => ret m
             | None => raise UnboundLocalError_exc
             end ;;
     h <- invoke (Copenbin path mode) (fs_openbin path mode) ;;
     _ <- descriptors_setitem fd h ;;
     ret fd).

Definition create (path : string) (mode : Z) : st (adapter B H) nat :=
  convert_fs_errors
    (let exclusive := Z.land O_EXCL mode in
     created <- invoke (Ccreate path) (fs_create path) ;;
     if negb created && truthy exclusive
     then raise FileExists_exc
     else open path mode).

Definition flush (path : string) (fd : nat) : st (adapter B H) unit :=
  convert_fs_errors
    (h <- descriptors_getitem fd ;;
     invoke (Cflush h) (stream_flush h)).

Definition getxattr (path name : string) : st (adapter B H) unit :=
  convert_fs_errors (raise (FuseOSError (Some ENOTSUP))).

Definition mkdir (path : string) (mode : Z) : st (adapter B H) unit :=
  convert_fs_errors (invoke (Cmakedir path) (fs_makedir path)).

Definition link (target source : string) : st (adapter B H) unit :=
  raise (FuseOSError (Some EPERM)).

Definition read (path : string) (size offset : Z) (fd : nat)
  : st (adapter B H) string :=
  convert_fs_errors
    (handle <- descriptors_getitem fd ;;
     readable <- invoke (Creadable handle) (stream_readable handle) ;;
     if negb readable
     then raise (FuseOSError (Some EINVAL))
     else (_ <- invoke (Cseek handle offset) (stream_seek handle offset) ;;
           invoke (Cread handle size) (stream_read handle size))).

Definition release (path : string) (fd : nat) : st (adapter B H) unit :=
  convert_fs_errors
    (h <- descriptors_pop fd ;;
     invoke (Cclose h) (stream_close h)).

(** [for component in components: if not self.fs.isdir(component): raise
    FuseOSError(ENOTDIR)] *)
Fixpoint check_components (components : list string) : st (adapter B H) unit :=
  match components with
  | [] => ret tt
  | component :: rest =>
    isdir <- invoke (Cisdir component) (fs_isdir component) ;;
    if negb isdir
    then raise (FuseOSError (Some ENOTDIR))
    else check_components rest
  end.

Definition rename (old new : string) : st (adapter B H) unit :=
  convert_fs_errors
    (_old <- invoke (Cvalidatepath old) (fs_validatepath old) ;;
     _new <- invoke (Cvalidatepath new) (fs_validatepath new) ;;
     if str_in _old "/" || str_in _new "/" then
       raise (FuseOSError (Some ENOENT))
     else if isparent _old _new then
       raise (FuseOSError (Some EINVAL))
     else
       (_ <- check_components (removelast (recursepath _old)) ;;
        t <- invoke (Cgettype old) (fs_gettype old) ;;
        if decide (t = ResourceType.directory) then
          (e <- invoke (Cexists new) (fs_exists new) ;;
           _ <- (if negb e
                 then invoke (Cmakedir new) (fs_makedir new)
                 else ret tt) ;;
           empty <- invoke (Cisempty new) (fs_isempty new) ;;
           if negb empty
           then raise (FuseOSError (Some ENOTEMPTY))
           else invoke (Cmovedir old new) (fs_movedir old new))
        else
          (d <- invoke (Cisdir new) (fs_isdir new) ;;
           if d
           then raise (FuseOSError (Some EISDIR))
           else invoke (Cmove old new) (fs_move old new)))).

Definition rmdir (path : string) : st (adapter B H) unit :=
  convert_fs_errors
    (_ <- check_components (removelast (recursepath path)) ;;
     invoke (Cremovedir path) (fs_removedir path)).

Definition symlink (target source : string) : st (adapter B H) unit :=
  raise (FuseOSError (Some EPERM)).

(** The [try] block of [truncate]. *)
Definition truncate_try (fh : H) (length : Z) : st (adapter B H) unit :=
  writable <- invoke (Cwritable fh) (stream_writable fh) ;;
  if negb writable
  then raise (FuseOSError (Some EINVAL))
  else (_ <- invoke (Cseek fh 0) (stream_seek fh 0) ;;
        _ <- invoke (Ctruncate fh length) (stream_truncate fh length) ;;
        ret tt).

Definition truncate (path : string) (length : Z) (fd : option nat)
  : st (adapter B H) unit :=
  convert_fs_errors
    (_fd <- match fd with
            | Some (S n) => ret (S n)
            | Some O | None => open path O_RDWR    (* [0] and [None] are false *)
            end ;;
     fh <- descriptors_getitem _fd ;;
     try_finally
       (truncate_try fh length)
       (match fd with
        | None => release path _fd
        | Some _ => ret tt
        end)).

Definition unlink (path : string) : st (adapter B H) unit :=
  convert_fs_errors
    (_ <- check_components (removelast (recursepath path)) ;;
     invoke (Cremove path) (fs_remove path)).

Definition write (path data : string) (offset : Z) (fd : nat)
  : st (adapter B H) Z :=
  convert_fs_errors
    (fh <- descriptors_getitem fd ;;
     _ <- invoke (Cseek fh offset) (stream_seek fh offset) ;;
     writable <- invoke (Cwritable fh) (stream_writable fh) ;;
     if writable
     then invoke (Cwrite fh data) (stream_write fh data)
     else raise (FuseOSError (Some EINVAL))).

End Operations.

(** ** A concrete platform and a concrete backend

    The values of Linux for the flag bits, the two functions of [fs.path]
    on normalised absolute paths, and a small in-memory filesystem with
    seekable streams.  They instantiate the interfaces above wherever a
    statement is evaluated on an explicit input. *)

#[global] Instance linux_flags : PosixFlags :=
  {| O_APPEND := 1024; O_TRUNC := 512; O_EXCL := 128 |}.

Module MemFS.

(** [s.split("/")] *)
Fixpoint split_slash (s : string) : list string :=
  match s with
  | EmptyString => [EmptyString]
  | String c rest =>
    if Ascii.eqb c "/"%char then EmptyString :: split_slash rest
    else match split_slash rest with
         | [] => [String c EmptyString]
         | w :: ws => String c w :: ws
         end
  end.

Fixpoint drop_leading_empty (bits : list string) : list string :=
  match bits with
  | EmptyString :: rest => drop_leading_empty rest
  | _ => bits
  end.

Fixpoint list_prefixb (l1 l2 : list string) : bool :=
  match l1, l2 with
  | [], _ => true
  | x :: l1', y :: l2' => String.eqb x y && list_prefixb l1' l2'
  | _ :: _, [] => false
  end.

(** [isparent(path1, path2)]: the components of [path1], trailing empty
    ones dropped, start the components of [path2]. *)
Definition isparent_impl (path1 path2 : string) : bool :=
  list_prefixb (rev (drop_leading_empty (rev (split_slash path1))))
               (split_slash path2).

Fixpoint prefixes_from (base : string) (comps : list string) : list string :=
  match comps with
  | [] => []
  | c :: rest =>
    let here := (if String.eqb base "/" then "/" ++ c else base ++ "/" ++ c) in
    here :: prefixes_from here rest
  end.

(** [recursepath(path)]: ["/"] and then every prefix, shortest first. *)
Definition recursepath_impl (path : string) : list string :=
  "/" :: prefixes_from "/"
           (filter (fun c => c ≠ EmptyString) (split_slash path)).

#[global] Instance fspath : FsPath :=
  {| isparent := isparent_impl; recursepath := recursepath_impl |}.

Inductive node : Type :=
  | Dir
  | File (content : string).

Record stream : Type := Stream {
  s_path : string;
  s_mode : string;
  s_pos : Z
}.

Record memfs : Type := Mem {
  nodes : gmap string node;
  streams : gmap nat stream;
  next_handle : nat
}.

Definition ResourceNotFound_exc : exception :=
  Exception ResourceNotFound [ResourceError; FSError] None.
Definition DirectoryExists_exc : exception :=
  Exception DirectoryExists [ResourceError; FSError] None.
Definition DestinationExists_exc : exception :=
  Exception DestinationExists [ResourceError; FSError] None.
Definition closed_file_exc : exception :=
  Exception (OtherClass "ValueError") [] None.

Definition validatepath (p : string) : st memfs string := ret p.

Definition isdir (p : string) : st memfs bool :=
  fun b => (Returns (match nodes b !! p with Some Dir => true | _ => false end), b).

Definition exists_ (p : string) : st memfs bool :=
  fun b => (Returns (bool_decide (is_Some (nodes b !! p))), b).

Definition below (p k : string) : bool :=
  if String.eqb p "/" then negb (String.eqb k "/")
  else String.prefix (p ++ "/") k.

Definition isempty (p : string) : st memfs bool :=
  fun b => (Returns (forallb (fun kv => negb (below p kv.1)) (map_to_list (nodes b))), b).

Definition gettype (p : string) : st memfs ResourceType.t :=
  fun b =>
    match nodes b !! p with
    | Some Dir => (Returns ResourceType.directory, b)
    | Some (File _) => (Returns ResourceType.file, b)
    | None => (Raises ResourceNotFound_exc, b)
    end.

Definition create_ (p : string) : st memfs bool :=
  fun b =>
    match nodes b !! p with
    | Some _ => (Returns false, b)
    | None => (Returns true, Mem (<[p := File ""]> (nodes b)) (streams b) (next_handle b))
    end.

Definition makedir (p : string) : st memfs unit :=
  fun b =>
    match nodes b !! p with
    | Some _ => (Raises DirectoryExists_exc, b)
    | None => (Returns tt, Mem (<[p := Dir]> (nodes b)) (streams b) (next_handle b))
    end.

Definition remove_ (p : string) : st memfs unit :=
  fun b =>
    match nodes b !! p with
    | Some _ => (Returns tt, Mem (delete p (nodes b)) (streams b) (next_handle b))
    | None => (Raises ResourceNotFound_exc, b)
    end.

(** The key of a node once the subtree at [src] is at [dst]. *)
Definition rekey (src dst k : string) : string :=
  if String.eqb k src then dst
  else if String.prefix (src ++ "/") k
       then dst ++ String.substring (String.length src)
                                    (String.length k - String.length src) k
       else k.

Definition movedir_ (src dst : string) : st memfs unit :=
  fun b =>
    match nodes b !! src with
    | Some _ =>
      (Returns tt,
       Mem (list_to_map (map (fun kv => (rekey src dst kv.1, kv.2))
                             (map_to_list (delete dst (nodes b)))))
           (streams b) (next_handle b))
    | None => (Raises ResourceNotFound_exc, b)
    end.

(** [move(src, dst)] with the default [overwrite=False]. *)
Definition move_ (src dst : string) : st memfs unit :=
  fun b =>
    match nodes b !! src, nodes b !! dst with
    | Some n, None =>
      (Returns tt, Mem (<[dst := n]> (delete src (nodes b))) (streams b) (next_handle b))
    | Some _, Some _ => (Raises DestinationExists_exc, b)
    | None, _ => (Raises ResourceNotFound_exc, b)
    end.

Definition openbin (p mode : string) : st memfs nat :=
  fun b =>
    let h := next_handle b in
    let opened nodes' :=
      (Returns h, Mem nodes' (<[h := Stream p mode 0]> (streams b)) (S h)) in
    match nodes b !! p with
    | Some Dir => (Raises (Exception FileExpected [ResourceInvalid; ResourceError; FSError] None), b)
    | Some (File c) =>
      if String.eqb mode "w" || String.eqb mode "w+"
      then opened (<[p := File ""]> (nodes b))
      else opened (nodes b)
    | None =>
      if String.eqb mode "r" || String.eqb mode "r+"
      then (Raises ResourceNotFound_exc, b)
      else opened (<[p := File ""]> (nodes b))
    end.

Definition with_stream {A} (h : nat) (k : stream -> st memfs A) : st memfs A :=
  fun b =>
    match streams b !! h with
    | Some s => k s b
    | None => (Raises closed_file_exc, b)
    end.

Definition readable (h : nat) : st memfs bool :=
  with_stream h (fun s => ret (negb (String.eqb (s_mode s) "w" || String.eqb (s_mode s) "a"))).

Definition writable (h : nat) : st memfs bool :=
  with_stream h (fun s => ret (negb (String.eqb (s_mode s) "r"))).

Definition seek (h : nat) (offset : Z) : st memfs Z :=
  with_stream h (fun s b =>
    (Returns offset,
     Mem (nodes b) (<[h := Stream (s_path s) (s_mode s) offset]> (streams b)) (next_handle b))).

Definition content_of (b : memfs) (p : string) : string :=
  match nodes b !! p with
  | Some (File c) => c
  | _ => ""
  end.

Fixpoint zeros (n : nat) : string :=
  match n with
  | O => ""
  | S n' => String Ascii.zero (zeros n')
  end.

(** The first [n] bytes of [c], padded with zero bytes. *)
Definition resize (n : nat) (c : string) : string :=
  String.substring 0 n c ++ zeros (n - String.length c).

Definition read_ (h : nat) (size : Z) : st memfs string :=
  with_stream h (fun s b =>
    let c := content_of b (s_path s) in
    let data := String.substring (Z.to_nat (s_pos s)) (Z.to_nat size) c in
    (Returns data,
     Mem (nodes b)
         (<[h := Stream (s_path s) (s_mode s) (s_pos s + Z.of_nat (String.length data))]> (streams b))
         (next_handle b))).

Definition write_ (h : nat) (data : string) : st memfs Z :=
  with_stream h (fun s b =>
    let c := content_of b (s_path s) in
    let at_ := if String.eqb (s_mode s) "a" then String.length c else Z.to_nat (s_pos s) in
    let tail_from := (at_ + String.length data)%nat in
    let c' := resize at_ c ++ data
              ++ String.substring tail_from (String.length c - tail_from) c in
    (Returns (Z.of_nat (String.length data)),
     Mem (<[s_path s := File c']> (nodes b))
         (<[h := Stream (s_path s) (s_mode s) (Z.of_nat tail_from)]> (streams b))
         (next_handle b))).

Definition truncate_ (h : nat) (length : Z) : st memfs Z :=
  with_stream h (fun s b =>
    (Returns length,
     Mem (<[s_path s := File (resize (Z.to_nat length) (content_of b (s_path s)))]> (nodes b))
         (streams b) (next_handle b))).

Definition flush_ (h : nat) : st memfs unit :=
  with_stream h (fun _ => ret tt).

Definition close_ (h : nat) : st memfs unit :=
  fun b => (Returns tt, Mem (nodes b) (delete h (streams b)) (next_handle b)).

#[global] Instance backend : Backend memfs nat := {|
  fs_validatepath := validatepath;
  fs_isdir := isdir;
  fs_exists := exists_;
  fs_isempty := isempty;
  fs_gettype := gettype;
  fs_create := create_;
  fs_makedir := makedir;
  fs_removedir := remove_;
  fs_remove := remove_;
  fs_movedir := movedir_;
  fs_move := move_;
  fs_openbin := openbin;
  stream_readable := readable;
  stream_writable := writable;
  stream_seek := seek;
  stream_read := read_;
  stream_write := write_;
  stream_truncate := truncate_;
  stream_flush := flush_;
  stream_close := close_
|}.

(** A root directory holding the directory [/d] and the file [/d/f]. *)
Definition sample : memfs :=
  Mem (<["/d/f" := File "hello"]> (<["/d" := Dir]> {["/" := Dir]})) ∅ 0.

Definition start : adapter memfs nat := Adapter ∅ sample [].

End MemFS.

(** ** The specification's notions

    The definitions of this part follow the wording of the specification;
    the properties below compare them with the operations above. *)

(** [n] is the smallest non-negative integer not bound in [d]. *)
Definition smallest_unused {H} (d : gmap nat H) (n : nat) : Prop :=
  d !! n = None /\ forall m : nat, (m < n)%nat -> is_Some (d !! m).

(** The five modes of a stream and the mode string of each. *)
Inductive OpenMode : Type :=
  | mode_read
  | mode_write_truncate
  | mode_append
  | mode_read_write
  | mode_read_write_truncate.

Definition mode_string (m : OpenMode) : string :=
  match m with
  | mode_read => "r"
  | mode_write_truncate => "w"
  | mode_append => "a"
  | mode_read_write => "r+"
  | mode_read_write_truncate => "w+"
  end.

Definition is_set (flags bit : Z) : Prop := Z.land flags bit <> 0.

(** The decision table of [open], one constructor per row. *)
Inductive decision_table `{PosixFlags} (flags : Z) : OpenMode -> Prop :=
  | row_wronly_append :
      Z.land flags O_ACCMODE = O_WRONLY -> is_set flags O_APPEND ->
      decision_table flags mode_append
  | row_wronly_plain :
      Z.land flags O_ACCMODE = O_WRONLY -> ~ is_set flags O_APPEND ->
      decision_table flags mode_write_truncate
  | row_rdwr_trunc :
      Z.land flags O_ACCMODE = O_RDWR -> is_set flags O_TRUNC ->
      decision_table flags mode_read_write_truncate
  | row_rdwr_plain :
      Z.land flags O_ACCMODE = O_RDWR -> ~ is_set flags O_TRUNC ->
      decision_table flags mode_read_write
  | row_rdonly_write :
      Z.land flags O_ACCMODE = O_RDONLY ->
      is_set flags ST_WRITE \/ is_set flags O_TRUNC ->
      decision_table flags mode_read_write
  | row_rdonly_plain :
      Z.land flags O_ACCMODE = O_RDONLY ->
      ~ (is_set flags ST_WRITE \/ is_set flags O_TRUNC) ->
      decision_table flags mode_read.

(** The calls a method added to the log. *)
Definition new_calls {B H} (s s' : adapter B H) (t : list (event H)) : Prop :=
  calls s' = (calls s ++ t)%list.

(** A move or removal, if the log [t] of a method has one, is the last
    call of [t] and decides the outcome [r] of the method: nothing the
    method checks fails after it, and it follows every check that
    failed. *)
Definition move_is_last {H A} (t : list (event H)) (r : outcome A) : Prop :=
  forall pre ev post,
    t = (pre ++ ev :: post)%list ->
    is_move (ev_call ev) = true ->
    post = [] /\ raised r = _ConvertFSErrors.__exit__ <$> ev_raised ev.

Section RenameSteps.
Context {B H : Type} `{FsPath} `{Backend B H}.

Local Open Scope py_scope.


(** The root, absolute or relative. *)
Definition is_root (p : string) : bool := bool_decide (p = "/" \/ p = "").







End RenameSteps.

(** The mode of an attribute record. *)
Definition st_mode (r : outcome (gmap string Z) * Z) : option Z :=
  match r.1 with
  | Returns result => result !! "st_mode"
  | Raises _ => None
  end.

(** The type bit of a resource: directory or regular, none without the
    [details] namespace. *)
Definition type_bit (info : Info) : Z :=
  match ns_details info with
  | Some d => if decide (type_ d = ResourceType.directory) then S_IFDIR else S_IFREG
  | None => 0
  end.

(** The permission bits the [access] namespace supplies, if any. *)
Definition explicit_permissions (info : Info) : option Z :=
  match ns_access info with
  | Some a => permissions a
  | None => None
  end.

(** [0777] for a directory, [0666] otherwise, masked by the umask. *)
Definition default_permissions (d : details_ns) (umask : Z) : Z :=
  Z.land (if decide (type_ d = ResourceType.directory) then o777 else o666)
         (Z.lnot umask).




(** The calls [truncate] makes on a stream inside its [try] block. *)
Definition truncating_call {H} (h : H) (length : Z) (ev : event H) : Prop :=
  ev_call ev = Cwritable h \/ ev_call ev = Cseek h 0
  \/ ev_call ev = Ctruncate h length.

(** [m] logs no move or removal. *)
Definition quiet {B H A} (m : st (adapter B H) A) : Prop :=
  forall s, exists t,
    new_calls s (m s).2 t /\ Forall (fun ev => is_move (ev_call ev) = false) t.

(** [move_is_last] before the error translator: the outcome of the move
    is the outcome [r] as it stands. *)
Definition move_decides {H A} (t : list (event H)) (r : outcome A) : Prop :=
  forall pre ev post,
    t = (pre ++ ev :: post)%list ->
    is_move (ev_call ev) = true ->
    post = [] /\ raised r = ev_raised ev.

Definition ends_with_move {B H A} (m : st (adapter B H) A) : Prop :=
  forall s, exists t, new_calls s (m s).2 t /\ move_decides t (m s).1.

(** ** operations.py: the remaining methods

    [__init__], [getattr], [readdir] and [destroy].  [getattr] and
    [readdir] synthesise attribute records, so they run in the process
    that holds the umask beside the instance. *)

Definition S_IFMT : Z := 61440.    (* 0o170000 *)

(** The metadata and lifetime methods of [self.fs]. *)
Class BackendInfo (B : Type) : Type := {
  fs_getinfo : string -> list string -> st B Info;
  fs_scandir : string -> list string -> st B (list Info);
  fs_close : st B unit
}.

(** The instance and the umask of its process. *)
Record process (B H : Type) : Type := Process {
  proc_self : adapter B H;
  proc_umask : Z
}.
Arguments Process {B H}.
Arguments proc_self {B H}.
Arguments proc_umask {B H}.

(** One entry of a directory listing: a bare name, or the triple
    [(name, attributes, offset)]. *)
Inductive dirent : Type :=
  | Name (name : string)
  | Entry (name : option string) (attrs : gmap string Z) (offset : Z).

(** The stream a call is made on, if it is a stream call. *)
Definition call_stream {H} (c : call H) : option H :=
  match c with
  | Creadable h | Cwritable h | Cseek h _ | Cread h _ | Cwrite h _
  | Ctruncate h _ | Cflush h | Cclose h => Some h
  | _ => None
  end.

Section Remaining.
Context {B H : Type} {PF : PosixFlags} {FP : FsPath} {BE : Backend B H}
        {BI : BackendInfo B}.

Local Open Scope py_scope.

(** [__init__]: no descriptors; [open_fs(filesystem)] is the backend. *)
Definition __init__ (filesystem : B) : adapter B H := Adapter ∅ filesystem [].

(** A metadata or lifetime call on [self.fs]; the call log keeps to the
    calls that [call] names. *)
Definition fs_call {A} (method : st B A) : st (adapter B H) A :=
  fun s =>
    match method (fs s) with
    | (r, b) => (r, Adapter (descriptors s) b (calls s))
    end.

Definition on_self {A} (m : st (adapter B H) A) : st (process B H) A :=
  fun p =>
    match m (proc_self p) with
    | (r, s') => (r, Process s' (proc_umask p))
    end.

Definition on_umask {A} (m : st Z A) : st (process B H) A :=
  fun p =>
    match m (proc_umask p) with
    | (r, u') => (r, Process (proc_self p) u')
    end.

Definition getattr (path : string) : st (process B H) (gmap string Z) :=
  convert_fs_errors
    (info <- on_self (fs_call (fs_getinfo path ["details"; "access"; "stat"; "link"])) ;;
     on_umask (_stat_from_info info)).

(** [[(info.name, self._stat_from_info(info), 0) for info in infos]] *)
Fixpoint stat_each (infos : list Info) : st Z (list dirent) :=
  match infos with
  | [] => ret []
  | info :: rest =>
    attrs <- _stat_from_info info ;;
    entries <- stat_each rest ;;
    ret (Entry (name info) attrs 0 :: entries)
  end.

(** [readdir]: [scandir] hands the children over as a list; the
    synthesis of their records touches the umask only. *)
Definition readdir (path : string) : st (process B H) (list dirent) :=
  convert_fs_errors
    (infos <- on_self (fs_call (fs_scandir path
                          ["basic"; "access"; "details"; "link"; "stat"])) ;;
     entries <- on_umask (stat_each infos) ;;
     ret (Name "." :: Name ".." :: entries)).

(** [for handle in handles: handle.close()] *)
Fixpoint close_each (handles : list H) : st (adapter B H) unit :=
  match handles with
  | [] => ret tt
  | handle :: rest =>
    _ <- invoke (Cclose handle) (stream_close handle) ;;
    close_each rest
  end.

(** [self.descriptors.values()], the ids taken in the order [order]: the
    table does not record the order in which a [dict] yields its
    entries. *)
Definition descriptors_values (order : list nat) : st (adapter B H) (list H) :=
  fun s => (Returns (omap (fun fd => descriptors s !! fd) order), s).

(** [self.descriptors.clear()] *)
Definition descriptors_clear : st (adapter B H) unit :=
  fun s => (Returns tt, Adapter ∅ (fs s) (calls s)).

Definition destroy (order : list nat) (path : string) : st (adapter B H) unit :=
  convert_fs_errors
    (handles <- descriptors_values order ;;
     _ <- close_each handles ;;
     _ <- descriptors_clear ;;
     fs_call fs_close).

(** A host that opens one file after the other. *)
Fixpoint open_each (requests : list (string * Z)) : st (adapter B H) (list nat) :=
  match requests with
  | [] => ret []
  | request :: rest =>
    fd <- open request.1 request.2 ;;
    fds <- open_each rest ;;
    ret (fd :: fds)
  end.

End Remaining.

(** The metadata methods of the in-memory filesystem. *)
Module MemInfo.

Definition basename (p : string) : string := List.last (MemFS.split_slash p) "".

Definition info_of (p : string) (n : MemFS.node) : Info :=
  match n with
  | MemFS.Dir =>
    MkInfo None
           (Some (Details None None None None None ResourceType.directory))
           None (Some (basename p))
  | MemFS.File c =>
    MkInfo None
           (Some (Details None None None None
                          (Some (Z.of_nat (String.length c))) ResourceType.file))
           None (Some (basename p))
  end.

Definition getinfo (p : string) (namespaces : list string) : st MemFS.memfs Info :=
  fun b =>
    match MemFS.nodes b !! p with
    | Some n => (Returns (info_of p n), b)
    | None => (Raises MemFS.ResourceNotFound_exc, b)
    end.

(** [k] is directly inside [p]. *)
Definition is_child (p k : string) : bool :=
  negb (String.eqb k "/")
  && String.eqb (List.last (removelast (MemFS.recursepath_impl k)) "/") p.

Definition scandir (p : string) (namespaces : list string)
  : st MemFS.memfs (list Info) :=
  fun b =>
    match MemFS.nodes b !! p with
    | Some MemFS.Dir =>
      (Returns (map (fun kv => info_of kv.1 kv.2)
                    (filter (fun kv => is_child p kv.1 = true)
                            (map_to_list (MemFS.nodes b)))), b)
    | Some (MemFS.File _) =>
      (Raises (Exception DirectoryExpected [ResourceInvalid; ResourceError; FSError] None), b)
    | None => (Raises MemFS.ResourceNotFound_exc, b)
    end.

Definition close : st MemFS.memfs unit := ret tt.

#[global] Instance backend_info : BackendInfo MemFS.memfs := {|
  fs_getinfo := getinfo;
  fs_scandir := scandir;
  fs_close := close
|}.

End MemInfo.

(** [m] keeps the descriptor table and logs only calls that satisfy [P]. *)
Definition logs_only {B H A} (P : call H -> Prop) (m : st (adapter B H) A) : Prop :=
  forall s,
    descriptors (m s).2 = descriptors s
    /\ exists t, new_calls s (m s).2 t /\ Forall (fun ev => P (ev_call ev)) t.

(** The in-memory filesystem with a stream 0 whose [close] fails. *)
Module BrokenClose.

Definition OperationFailed_exc : exception :=
  Exception OperationFailed [FSError] None.

Definition close_ (h : nat) : st MemFS.memfs unit :=
  if Nat.eqb h 0 then raise OperationFailed_exc else MemFS.close_ h.

Definition backend : Backend MemFS.memfs nat := {|
  fs_validatepath := MemFS.validatepath;
  fs_isdir := MemFS.isdir;
  fs_exists := MemFS.exists_;
  fs_isempty := MemFS.isempty;
  fs_gettype := MemFS.gettype;
  fs_create := MemFS.create_;
  fs_makedir := MemFS.makedir;
  fs_removedir := MemFS.remove_;
  fs_remove := MemFS.remove_;
  fs_movedir := MemFS.movedir_;
  fs_move := MemFS.move_;
  fs_openbin := MemFS.openbin;
  stream_readable := MemFS.readable;
  stream_writable := MemFS.writable;
  stream_seek := MemFS.seek;
  stream_read := MemFS.read_;
  stream_write := MemFS.write_;
  stream_truncate := MemFS.truncate_;
  stream_flush := MemFS.flush_;
  stream_close := close_
|}.

End BrokenClose.

(** * Properties *)

Local Open Scope list_scope.

(** ** The error translator *)

(** What [__exit__] lets out never goes through the table a second time:
    a method decorated twice over (a decorated method calling another)
    translates once. *)
Lemma exit_idempotent (e : exception) :
  _ConvertFSErrors.__exit__ (_ConvertFSErrors.__exit__ e)
  = _ConvertFSErrors.__exit__ e.
Proof.
  unfold _ConvertFSErrors.__exit__.
  destruct (isinstance e [FSError; KeyError]) eqn:E.
  - reflexivity.
  - now rewrite E.
Qed.

Lemma exit_FuseOSError (code : option errno) :
  _ConvertFSErrors.__exit__ (FuseOSError code) = FuseOSError code.
Proof. reflexivity. Qed.

Lemma convert_fs_errors_idempotent {S A} (m : st S A) (s : S) :
  convert_fs_errors (convert_fs_errors m) s = convert_fs_errors m s.
Proof.
  unfold convert_fs_errors. destruct (m s) as [[a|e] s']; [reflexivity|].
  now rewrite exit_idempotent.
Qed.

Lemma bind_unfold {S A A'} (m : st S A) (k : A -> st S A') (s : S) :
  bind m k s
  = match m s with
    | (Returns a, s') => k a s'
    | (Raises e, s') => (Raises e, s')
    end.
Proof. reflexivity. Qed.

Lemma ret_unfold {S A} (a : A) (s : S) : ret a s = (Returns a, s).
Proof. reflexivity. Qed.


(** The decorator around a sequence: it translates what the first part
    raises and otherwise wraps the rest. *)
Lemma convert_fs_errors_bind {S A A'} (m : st S A) (k : A -> st S A') (s : S) :
  convert_fs_errors (bind m k) s
  = match m s with
    | (Returns a, s') => convert_fs_errors (k a) s'
    | (Raises e, s') => (Raises (_ConvertFSErrors.__exit__ e), s')
    end.
Proof.
  unfold convert_fs_errors, bind. destruct (m s) as [[a|e] s']; reflexivity.
Qed.

(** The classes bound in [FILE_ERRORS] come out with the code of the
    table, whatever their bases, once [isinstance] accepts them. *)
Lemma exit_mapped (e : exception) (code : errno) :
  isinstance e [FSError; KeyError] = true ->
  _ConvertFSErrors.FILE_ERRORS_get (exc_type e) = Some code ->
  _ConvertFSErrors.__exit__ e = FuseOSError (Some code).
Proof.
  intros Hi Hc. unfold _ConvertFSErrors.__exit__. now rewrite Hi, Hc.
Qed.


(** ** The descriptor table *)

Lemma smallest_unused_unique {H} (d : gmap nat H) (n n' : nat) :
  smallest_unused d n -> smallest_unused d n' -> n = n'.
Proof.
  intros [Hn Hlt] [Hn' Hlt'].
  destruct (Nat.lt_total n n') as [Hc|[Hc|Hc]]; [|exact Hc|].
  - apply Hlt' in Hc. rewrite Hn in Hc. now destruct Hc.
  - apply Hlt in Hc. rewrite Hn' in Hc. now destruct Hc.
Qed.

Lemma count_not_in_Some {H} (d : gmap nat H) (fuel x0 n : nat) :
  count_not_in d fuel x0 = Some n ->
  d !! n = None /\ (x0 <= n)%nat
  /\ forall m : nat, (x0 <= m < n)%nat -> is_Some (d !! m).
Proof.
  revert x0. induction fuel as [|fuel IH]; intros x0; simpl; [discriminate|].
  destruct (d !! x0) as [h|] eqn:E.
  - intros Hs. destruct (IH _ Hs) as (Hn & Hle & Hbelow).
    split; [exact Hn|]. split; [lia|].
    intros m Hm. destruct (decide (m = x0)) as [->|Hne].
    + rewrite E. eauto.
    + apply Hbelow. lia.
  - intros [= <-]. split; [exact E|]. split; [lia|]. intros m Hm. lia.
Qed.

Lemma count_not_in_None {H} (d : gmap nat H) (fuel x0 : nat) :
  count_not_in d fuel x0 = None ->
  forall m : nat, (x0 <= m < x0 + fuel)%nat -> is_Some (d !! m).
Proof.
  revert x0. induction fuel as [|fuel IH]; intros x0; simpl.
  - intros _ m Hm. lia.
  - destruct (d !! x0) as [h|] eqn:E; [|discriminate].
    intros Hn m Hm. destruct (decide (m = x0)) as [->|Hne].
    + rewrite E. eauto.
    + apply (IH _ Hn). lia.
Qed.

(** A table of [size d] descriptors cannot bind all of [0 .. size d]. *)
Lemma count_not_in_enough {H} (d : gmap nat H) :
  is_Some (count_not_in d (S (size d)) 0).
Proof.
  destruct (count_not_in d (S (size d)) 0) as [n|] eqn:E; [eauto|].
  exfalso.
  assert (Hsub : set_seq (C := gset nat) 0 (S (size d)) ⊆ dom d).
  { intros m Hm. apply elem_of_set_seq in Hm. apply elem_of_dom.
    apply (count_not_in_None _ _ _ E). lia. }
  apply subseteq_size in Hsub.
  rewrite size_set_seq, size_dom in Hsub. lia.
Qed.

Lemma count_not_in_smallest {H} (d : gmap nat H) :
  exists n, count_not_in d (S (size d)) 0 = Some n /\ smallest_unused d n.
Proof.
  destruct (count_not_in_enough d) as [n Hn]. exists n. split; [exact Hn|].
  destruct (count_not_in_Some _ _ _ _ Hn) as (Hfree & _ & Hbelow).
  split; [exact Hfree|]. intros m Hm. apply Hbelow. lia.
Qed.

Section DescriptorFacts.
Context {B H : Type} {PF : PosixFlags} {FP : FsPath} {BE : Backend B H}.

Lemma _getfd_returns (s : adapter B H) :
  exists n, _getfd s = (Returns n, s) /\ smallest_unused (descriptors s) n.
Proof.
  destruct (count_not_in_smallest (descriptors s)) as (n & Hn & Hsm).
  exists n. unfold _getfd. now rewrite Hn.
Qed.

(** What [open] does when it returns: the id is the one [_getfd] chose,
    the stream is the one [openbin] returned for the computed mode, and
    the table grows by this one binding. *)
Lemma open_returns (path : string) (flags : Z) (s s' : adapter B H) (fd : nat) :
  open path flags s = (Returns fd, s') ->
  exists mode h b',
    open_mode flags = Some mode
    /\ fs_openbin path mode (fs s) = (Returns h, b')
    /\ smallest_unused (descriptors s) fd
    /\ s' = Adapter (<[fd := h]> (descriptors s)) b'
                    (calls s ++ [Ev (Copenbin path mode) None]).
Proof.
  unfold open, convert_fs_errors, bind.
  destruct (_getfd_returns s) as (n & -> & Hsm).
  destruct (open_mode flags) as [mode|]; cbn; [|discriminate].
  unfold invoke. destruct (fs_openbin path mode (fs s)) as [[h|e] b'] eqn:E; cbn.
  - intros [= <- <-]. exists mode, h, b'. auto.
  - discriminate.
Qed.

(** When [open] raises, the table is as it was. *)
Lemma open_raises (path : string) (flags : Z) (s s' : adapter B H) (e : exception) :
  open path flags s = (Raises e, s') -> descriptors s' = descriptors s.
Proof.
  unfold open, convert_fs_errors, bind.
  destruct (_getfd_returns s) as (n & -> & Hsm).
  destruct (open_mode flags) as [mode|]; cbn.
  - unfold invoke. destruct (fs_openbin path mode (fs s)) as [[h|e'] b']; cbn.
    + discriminate.
    + now intros [= _ <-].
  - now intros [= _ <-].
Qed.

Lemma release_bound (path : string) (fd : nat) (h : H) (s : adapter B H) :
  descriptors s !! fd = Some h ->
  descriptors (release path fd s).2 = delete fd (descriptors s)
  /\ (release path fd s).1
     = match (stream_close h (fs s)).1 with
       | Returns a => Returns a
       | Raises e => Raises (_ConvertFSErrors.__exit__ e)
       end
  /\ fs (release path fd s).2 = (stream_close h (fs s)).2
  /\ calls (release path fd s).2
     = calls s ++ [Ev (Cclose h) (raised (stream_close h (fs s)).1)].
Proof.
  intros Hfd. unfold release, convert_fs_errors, bind, descriptors_pop, invoke.
  rewrite Hfd. cbn. destruct (stream_close h (fs s)) as [[a|e] b']; cbn; auto.
Qed.

Lemma release_unbound (path : string) (fd : nat) (s : adapter B H) :
  descriptors s !! fd = None ->
  release path fd s = (Raises (FuseOSError (Some EBADF)), s).
Proof.
  intros Hfd. unfold release, convert_fs_errors, bind, descriptors_pop.
  now rewrite Hfd.
Qed.

End DescriptorFacts.

(** C4: [_getfd] always returns, and returns the smallest id not bound;
    [open] binds exactly that id, which was free, and leaves every other
    binding alone, so no open id is handed out twice; [release] of a bound
    id frees it, and the next allocation takes the smallest free id, which
    is then at most the released one. *)
Theorem descriptor_ids_smallest_unused
  {B H : Type} {PF : PosixFlags} {FP : FsPath} {BE : Backend B H} (s : adapter B H) :
  (exists n, _getfd s = (Returns n, s) /\ smallest_unused (descriptors s) n
             /\ forall n', smallest_unused (descriptors s) n' -> n' = n)
  /\ (forall path flags fd s',
         open path flags s = (Returns fd, s') ->
         smallest_unused (descriptors s) fd
         /\ is_Some (descriptors s' !! fd)
         /\ (forall k, is_Some (descriptors s !! k) ->
                       k <> fd /\ descriptors s' !! k = descriptors s !! k)
         /\ forall n', _getfd s' = (Returns n', s') -> n' <> fd)
  /\ (forall path fd,
         is_Some (descriptors s !! fd) ->
         let s' := (release path fd s).2 in
         descriptors s' = delete fd (descriptors s)
         /\ exists n', _getfd s' = (Returns n', s')
                       /\ smallest_unused (descriptors s') n'
                       /\ (n' <= fd)%nat).
Proof.
  split; [|split].
  - destruct (_getfd_returns s) as (n & Hn & Hsm). exists n.
    split; [exact Hn|]. split; [exact Hsm|].
    intros n' Hn'. exact (smallest_unused_unique _ _ _ Hn' Hsm).
  - intros path flags fd s' Hopen.
    destruct (open_returns _ _ _ _ _ Hopen) as (mode & h & b' & _ & _ & Hsm & ->).
    cbn. split; [exact Hsm|]. split.
    { rewrite lookup_insert_eq. eauto. }
    split.
    + intros k Hk. assert (k <> fd) as Hne.
      { intros ->. destruct Hsm as [Hnone _]. rewrite Hnone in Hk. now destruct Hk. }
      split; [exact Hne|]. now rewrite lookup_insert_ne.
    + intros n' Hn' ->.
      match type of Hn' with _getfd ?s1 = _ =>
        destruct (_getfd_returns s1) as (n & Hn & [Hfree _]) end.
      rewrite Hn in Hn'. injection Hn' as ->. cbn in Hfree.
      rewrite lookup_insert_eq in Hfree. discriminate.
  - intros path fd [h Hfd] s'.
    destruct (release_bound path fd h s Hfd) as (Hd & _).
    split; [exact Hd|].
    destruct (_getfd_returns s') as (n' & Hn' & Hsm).
    exists n'. split; [exact Hn'|]. split; [exact Hsm|].
    destruct Hsm as [_ Hbelow].
    destruct (Nat.le_gt_cases n' fd) as [Hle|Hgt]; [exact Hle|].
    apply Hbelow in Hgt. subst s'. rewrite Hd, lookup_delete_eq in Hgt.
    now destruct Hgt.
Qed.

(** The table of [MemFS.start] after two [open]s: releasing id 0 makes 0
    the next id again. *)
Lemma descriptor_ids_smallest_unused_witness :
  let s := (bind (open "/d/f" O_RDONLY) (fun _ => open "/d/f" O_RDONLY)
              MemFS.start).2 in
  is_Some (descriptors s !! 0%nat)
  /\ exists n', _getfd (release "/d/f" 0%nat s).2
                = (Returns n', (release "/d/f" 0%nat s).2)
                /\ (n' <= 0)%nat.
Proof.
  intros s. assert (Hb : is_Some (descriptors s !! 0%nat)).
  { exists 0%nat. vm_compute. reflexivity. }
  split; [exact Hb|].
  destruct (descriptor_ids_smallest_unused s) as (_ & _ & Hrel).
  destruct (Hrel "/d/f" 0%nat Hb) as (_ & n' & Hn' & _ & Hle).
  exists n'. split; [exact Hn'|exact Hle].
Defined.

(** ** [open]: the mode *)

Lemma truthy_is_set (flags bit : Z) :
  truthy (Z.land flags bit) = true <-> is_set flags bit.
Proof.
  unfold truthy, is_set. rewrite negb_true_iff, Z.eqb_neq. reflexivity.
Qed.

Lemma truthy_not_set (flags bit : Z) :
  truthy (Z.land flags bit) = false <-> ~ is_set flags bit.
Proof.
  rewrite <- truthy_is_set. destruct (truthy (Z.land flags bit)); split; auto;
    try discriminate. intros Hn. now contradiction Hn.
Qed.

Lemma is_set_lor (flags a b : Z) :
  is_set flags (Z.lor a b) <-> is_set flags a \/ is_set flags b.
Proof.
  unfold is_set. rewrite Z.land_lor_distr_r.
  destruct (Z.eq_dec (Z.land flags a) 0) as [Ha|Ha];
    destruct (Z.eq_dec (Z.land flags b) 0) as [Hb|Hb].
  - rewrite Ha, Hb. cbn. tauto.
  - split; [tauto|]. intros _ Hz. apply Z.lor_eq_0_iff in Hz. tauto.
  - split; [tauto|]. intros _ Hz. apply Z.lor_eq_0_iff in Hz. tauto.
  - split; [tauto|]. intros _ Hz. apply Z.lor_eq_0_iff in Hz. tauto.
Qed.

Lemma mode_string_inj (m m' : OpenMode) :
  mode_string m = mode_string m' -> m = m'.
Proof. destruct m, m'; cbn; intros E; try reflexivity; discriminate. Qed.

(** The mode string [open] computes is the one of the row of the table
    that applies, and no row applies when [open] leaves [mode] unbound. *)
Lemma open_mode_table {PF : PosixFlags} (flags : Z) (m : OpenMode) :
  decision_table flags m <-> open_mode flags = Some (mode_string m).
Proof.
  unfold open_mode. split.
  - intros [Ha Hb|Ha Hb|Ha Hb|Ha Hb|Ha Hb|Ha Hb]; rewrite Ha; cbn.
    + apply truthy_is_set in Hb. now rewrite Hb.
    + apply truthy_not_set in Hb. now rewrite Hb.
    + apply truthy_is_set in Hb. now rewrite Hb.
    + apply truthy_not_set in Hb. now rewrite Hb.
    + apply is_set_lor, truthy_is_set in Hb. now rewrite Hb.
    + rewrite <- is_set_lor in Hb. apply truthy_not_set in Hb. now rewrite Hb.
  - destruct (Z.eqb_spec (Z.land flags O_ACCMODE) O_WRONLY) as [Ha|_].
    { destruct (truthy (Z.land flags O_APPEND)) eqn:Hb; intros [= E];
        destruct m; try discriminate E.
      - apply row_wronly_append; [exact Ha|now apply truthy_is_set].
      - apply row_wronly_plain; [exact Ha|now apply truthy_not_set]. }
    destruct (Z.eqb_spec (Z.land flags O_ACCMODE) O_RDWR) as [Ha|_].
    { destruct (truthy (Z.land flags O_TRUNC)) eqn:Hb; intros [= E];
        destruct m; try discriminate E.
      - apply row_rdwr_trunc; [exact Ha|now apply truthy_is_set].
      - apply row_rdwr_plain; [exact Ha|now apply truthy_not_set]. }
    destruct (Z.eqb_spec (Z.land flags O_ACCMODE) O_RDONLY) as [Ha|_];
      [|discriminate].
    destruct (truthy (Z.land flags (Z.lor ST_WRITE O_TRUNC))) eqn:Hb; intros [= E];
      destruct m; try discriminate E.
    + apply row_rdonly_write; [exact Ha|]. now apply is_set_lor, truthy_is_set.
    + apply row_rdonly_plain; [exact Ha|].
      rewrite <- is_set_lor. now apply truthy_not_set.
Qed.

Lemma decision_table_functional {PF : PosixFlags} (flags : Z) (m m' : OpenMode) :
  decision_table flags m -> decision_table flags m' -> m = m'.
Proof.
  rewrite !open_mode_table. intros -> [= E]. now apply mode_string_inj.
Qed.

(** C2: whenever [open] returns a descriptor, exactly one row of the
    decision table applies to [flags], and the stream bound to the
    descriptor is the one [openbin] returned for the mode of that row. *)
Theorem open_mode_by_decision_table
  {B H : Type} {PF : PosixFlags} {FP : FsPath} {BE : Backend B H}
  (path : string) (flags : Z) (s s' : adapter B H) (fd : nat) :
  open path flags s = (Returns fd, s') ->
  exists m h,
    decision_table flags m
    /\ (forall m', decision_table flags m' -> m' = m)
    /\ fs_openbin path (mode_string m) (fs s) = (Returns h, fs s')
    /\ descriptors s' !! fd = Some h.
Proof.
  intros Hopen.
  destruct (open_returns _ _ _ _ _ Hopen) as (mode & h & b' & Hm & Hob & _ & ->).
  assert (exists m, mode = mode_string m) as [m ->].
  { revert Hm. unfold open_mode.
    repeat match goal with |- context [if ?c then _ else _] => destruct c end;
      intros [= <-];
      [exists mode_append|exists mode_write_truncate
       |exists mode_read_write_truncate|exists mode_read_write
       |exists mode_read_write|exists mode_read]; reflexivity. }
  assert (Hrow : decision_table flags m) by now apply open_mode_table.
  exists m, h. split; [exact Hrow|]. split.
  - intros m' Hm'. exact (decision_table_functional _ _ _ Hm' Hrow).
  - cbn. split; [exact Hob|]. now rewrite lookup_insert_eq.
Qed.

(** [open("/d/f", O_WRONLY | O_APPEND)] on the sample filesystem. *)
Lemma open_mode_by_decision_table_witness :
  exists m h,
    decision_table (Z.lor O_WRONLY O_APPEND) m
    /\ fs_openbin "/d/f" (mode_string m) (fs MemFS.start)
       = (Returns h, fs (open "/d/f" (Z.lor O_WRONLY O_APPEND) MemFS.start).2)
    /\ descriptors (open "/d/f" (Z.lor O_WRONLY O_APPEND) MemFS.start).2 !! 0%nat
       = Some h.
Proof.
  destruct (open_mode_by_decision_table "/d/f" (Z.lor O_WRONLY O_APPEND)
              MemFS.start (open "/d/f" (Z.lor O_WRONLY O_APPEND) MemFS.start).2
              0%nat)
    as (m & h & Hrow & _ & Hob & Hd).
  - vm_compute. reflexivity.
  - exists m, h. auto.
Defined.

(** ** [create] *)

(** C5: with [fs.create] reporting whether it created the resource,
    [create] fails with [EEXIST] when the resource existed and the
    exclusive flag is set, opening nothing; in every other case it goes on
    as [open] with the same flags, from the state [fs.create] left, and
    returns what [open] returns. *)
Theorem create_exclusive_or_open
  {B H : Type} {PF : PosixFlags} {FP : FsPath} {BE : Backend B H}
  (path : string) (mode : Z) (s : adapter B H) (created : bool) (b' : B) :
  fs_create path (fs s) = (Returns created, b') ->
  let s1 := Adapter (descriptors s) b' (calls s ++ [Ev (Ccreate path) None]) in
  (created = false -> is_set mode O_EXCL ->
   create path mode s = (Raises (FuseOSError (Some EEXIST)), s1))
  /\ (created = true \/ ~ is_set mode O_EXCL ->
      create path mode s = open path mode s1).
Proof.
  intros Hc s1. unfold create. rewrite convert_fs_errors_bind.
  unfold invoke. rewrite Hc. fold s1. split.
  - intros -> Hx.
    rewrite Z.land_comm. apply truthy_is_set in Hx. rewrite Hx. reflexivity.
  - intros Hcase.
    assert (negb created && truthy (Z.land O_EXCL mode) = false) as ->.
    { destruct Hcase as [->|Hx]; [reflexivity|].
      rewrite Z.land_comm. apply truthy_not_set in Hx. rewrite Hx.
      now destruct created. }
    unfold open. apply convert_fs_errors_idempotent.
Qed.

(** The sample filesystem: [/d/f] exists, so an exclusive [create] is
    refused and a plain one goes on to [open]. *)
Lemma create_exclusive_or_open_witness :
  create "/d/f" O_EXCL MemFS.start
  = (Raises (FuseOSError (Some EEXIST)),
     Adapter ∅ MemFS.sample [Ev (Ccreate "/d/f") None])
  /\ create "/d/f" O_RDONLY MemFS.start
     = open "/d/f" O_RDONLY (Adapter ∅ MemFS.sample [Ev (Ccreate "/d/f") None]).
Proof.
  split.
  - apply (create_exclusive_or_open "/d/f" O_EXCL MemFS.start false MemFS.sample).
    + reflexivity.
    + reflexivity.
    + vm_compute. discriminate.
  - apply (create_exclusive_or_open "/d/f" O_RDONLY MemFS.start false MemFS.sample).
    + reflexivity.
    + right. vm_compute. intros Hx. now apply Hx.
Defined.

(** ** [truncate] *)

Lemma convert_fs_errors_state {S A} (m : st S A) (s : S) :
  (convert_fs_errors m s).2 = (m s).2.
Proof. unfold convert_fs_errors. now destruct (m s) as [[a|e] s']. Qed.

Lemma convert_fs_errors_result {S A} (m : st S A) (s : S) :
  (convert_fs_errors m s).1
  = match (m s).1 with
    | Returns a => Returns a
    | Raises e => Raises (_ConvertFSErrors.__exit__ e)
    end.
Proof. unfold convert_fs_errors. now destruct (m s) as [[a|e] s']. Qed.

Lemma try_finally_state {S A} (body : st S A) (fin : st S unit) (s : S) :
  (try_finally body fin s).2 = (fin (body s).2).2.
Proof.
  unfold try_finally. destruct (body s) as [r s1]. cbn.
  now destruct (fin s1) as [[a|e] s2].
Qed.

Lemma try_finally_result {S A} (body : st S A) (fin : st S unit) (s : S) :
  (try_finally body fin s).1
  = match (fin (body s).2).1 with
    | Returns _ => (body s).1
    | Raises e => Raises e
    end.
Proof.
  unfold try_finally. destruct (body s) as [r s1]. cbn.
  now destruct (fin s1) as [[a|e] s2].
Qed.

Section TruncateFacts.
Context {B H : Type} {PF : PosixFlags} {FP : FsPath} {BE : Backend B H}.

Lemma truncate_try_frame (h : H) (length : Z) (s : adapter B H) :
  descriptors (truncate_try h length s).2 = descriptors s
  /\ exists t, calls (truncate_try h length s).2 = calls s ++ t
               /\ Forall (truncating_call h length) t.
Proof.
  unfold truncate_try, bind, invoke.
  destruct (stream_writable h (fs s)) as [[[]|e] b2]; cbn;
    [destruct (stream_seek h 0 b2) as [[p|e] b3]; cbn;
     [destruct (stream_truncate h length b3) as [[n|e] b4]; cbn|]| |];
    (split; [reflexivity|]); eexists; rewrite <- ?app_assoc;
    (split; [reflexivity|]);
    repeat (apply Forall_cons; split; [unfold truncating_call; cbn; auto|]);
    apply Forall_nil; exact I.
Qed.

Lemma truncate_try_not_writable (h : H) (length : Z) (s : adapter B H) (b2 : B) :
  stream_writable h (fs s) = (Returns false, b2) ->
  truncate_try h length s
  = (Raises (FuseOSError (Some EINVAL)),
     Adapter (descriptors s) b2 (calls s ++ [Ev (Cwritable h) None])).
Proof.
  intros Hw. unfold truncate_try, bind, invoke. now rewrite Hw.
Qed.

Lemma truncate_try_writable (h : H) (length : Z) (s : adapter B H)
      (b2 b3 b4 : B) (p n : Z) :
  stream_writable h (fs s) = (Returns true, b2) ->
  stream_seek h 0 b2 = (Returns p, b3) ->
  stream_truncate h length b3 = (Returns n, b4) ->
  truncate_try h length s
  = (Returns tt,
     Adapter (descriptors s) b4
       (calls s ++ [Ev (Cwritable h) None; Ev (Cseek h 0) None;
                    Ev (Ctruncate h length) None])).
Proof.
  intros Hw Hs Ht. unfold truncate_try, bind, invoke.
  rewrite Hw. cbn. rewrite Hs. cbn. rewrite Ht. cbn.
  now rewrite <- !app_assoc.
Qed.

(** [O_RDWR] without the truncation bit opens in mode [r+]. *)
Lemma open_mode_O_RDWR : Z.land O_RDWR O_TRUNC = 0 -> open_mode O_RDWR = Some "r+".
Proof. intros Ht. unfold open_mode. cbn. now rewrite Ht. Qed.

(** Once its [open] has returned, [truncate] without a usable descriptor
    runs the [try] block on the stream just bound. *)
Lemma truncate_after_open (path : string) (length : Z) (fd0 : option nat)
      (s s1 : adapter B H) (fd : nat) (h : H) :
  fd0 = None \/ fd0 = Some 0%nat ->
  open path O_RDWR s = (Returns fd, s1) ->
  descriptors s1 !! fd = Some h ->
  truncate path length fd0 s
  = convert_fs_errors
      (try_finally (truncate_try h length)
                   (match fd0 with None => release path fd | Some _ => ret tt end))
      s1.
Proof.
  intros Hfd Hopen Hh. unfold truncate. rewrite convert_fs_errors_bind.
  assert (match fd0 with
          | Some (S n) => ret (S n)
          | _ => open path O_RDWR
          end s = (Returns fd, s1)) as ->.
  { now destruct Hfd as [->| ->]. }
  rewrite convert_fs_errors_bind. unfold descriptors_getitem. now rewrite Hh.
Qed.

Lemma truncate_open_raises (path : string) (length : Z) (fd0 : option nat)
      (s s1 : adapter B H) (e : exception) :
  fd0 = None \/ fd0 = Some 0%nat ->
  open path O_RDWR s = (Raises e, s1) ->
  (truncate path length fd0 s).2 = s1.
Proof.
  intros Hfd Hopen. unfold truncate. rewrite convert_fs_errors_bind.
  assert (match fd0 with
          | Some (S n) => ret (S n)
          | _ => open path O_RDWR
          end s = (Raises e, s1)) as ->.
  { now destruct Hfd as [->| ->]. }
  reflexivity.
Qed.

End TruncateFacts.

(** C6: [truncate] without a descriptor, on a platform whose truncation
    flag is not an access-mode bit.  The descriptor table is afterwards
    what it was before, in every outcome.  If the backend opened a stream
    (in mode [r+]), closing it is the last call made, in every outcome.
    If that stream is not writable, nothing is sought or truncated and the
    call fails: with [EINVAL], or with the translated error of the close
    if the close raises too.  If it is writable, the stream is sought to
    0 and then truncated to [length], and the call returns once the close
    returns. *)
Theorem truncate_without_descriptor
  {B H : Type} {PF : PosixFlags} {FP : FsPath} {BE : Backend B H}
  (path : string) (length : Z) (s : adapter B H) :
  Z.land O_RDWR O_TRUNC = 0 ->
  let out := truncate path length None s in
  descriptors out.2 = descriptors s
  /\ forall (h : H) (b1 : B),
      fs_openbin path "r+" (fs s) = (Returns h, b1) ->
      (exists t x,
          calls out.2
          = calls s ++ Ev (Copenbin path "r+") None :: t ++ [Ev (Cclose h) x]
          /\ Forall (truncating_call h length) t)
      /\ (forall b2,
             stream_writable h b1 = (Returns false, b2) ->
             out.1 = Raises (match (stream_close h b2).1 with
                             | Returns _ => FuseOSError (Some EINVAL)
                             | Raises e => _ConvertFSErrors.__exit__ e
                             end)
             /\ fs out.2 = (stream_close h b2).2
             /\ calls out.2
                = calls s ++ [Ev (Copenbin path "r+") None;
                              Ev (Cwritable h) None;
                              Ev (Cclose h) (raised (stream_close h b2).1)])
      /\ (forall b2 b3 b4 p n,
             stream_writable h b1 = (Returns true, b2) ->
             stream_seek h 0 b2 = (Returns p, b3) ->
             stream_truncate h length b3 = (Returns n, b4) ->
             out.1 = match (stream_close h b4).1 with
                     | Returns _ => Returns tt
                     | Raises e => Raises (_ConvertFSErrors.__exit__ e)
                     end
             /\ fs out.2 = (stream_close h b4).2
             /\ calls out.2
                = calls s ++ [Ev (Copenbin path "r+") None;
                              Ev (Cwritable h) None;
                              Ev (Cseek h 0) None;
                              Ev (Ctruncate h length) None;
                              Ev (Cclose h) (raised (stream_close h b4).1)]).
Proof.
  intros Htrunc out.
  destruct (open path O_RDWR s) as [[fd|e] s1] eqn:Hopen.
  2:{ (* [open] raised: nothing was bound, no stream was opened *)
    split.
    - unfold out. rewrite (truncate_open_raises _ _ _ _ _ _ (or_introl eq_refl) Hopen).
      exact (open_raises _ _ _ _ _ Hopen).
    - intros h b1 Hob. exfalso. revert Hopen.
      unfold open. rewrite convert_fs_errors_bind.
      destruct (_getfd_returns s) as (n & -> & _).
      rewrite convert_fs_errors_bind, (open_mode_O_RDWR Htrunc). cbn.
      rewrite convert_fs_errors_bind. unfold invoke. rewrite Hob. discriminate. }
  destruct (open_returns _ _ _ _ _ Hopen)
    as (mode & h & b1 & Hmode & Hob & [Hfree _] & Hs1).
  rewrite (open_mode_O_RDWR Htrunc) in Hmode. injection Hmode as <-.
  assert (Hh : descriptors s1 !! fd = Some h).
  { rewrite Hs1. cbn. now rewrite lookup_insert_eq. }
  assert (Hout : out = convert_fs_errors
                         (try_finally (truncate_try h length) (release path fd)) s1).
  { exact (truncate_after_open _ _ None _ _ _ _ (or_introl eq_refl) Hopen Hh). }
  destruct (truncate_try_frame h length s1) as (Hd & t & Ht & Hon).
  assert (Hh' : descriptors (truncate_try h length s1).2 !! fd = Some h)
    by now rewrite Hd.
  destruct (release_bound path fd h _ Hh') as (Hrd & Hrr & Hrf & Hrc).
  split.
  - rewrite Hout, convert_fs_errors_state, try_finally_state, Hrd, Hd, Hs1. cbn.
    now apply delete_insert_id.
  - intros h' b1' Hob'. rewrite Hob in Hob'. injection Hob' as <- <-.
    split; [|split].
    + exists t. eexists. split; [|exact Hon].
      rewrite Hout, convert_fs_errors_state, try_finally_state, Hrc, Ht, Hs1. cbn.
      rewrite <- !app_assoc. reflexivity.
    + intros b2 Hw.
      assert (Hw' : stream_writable h (fs s1) = (Returns false, b2))
        by now rewrite Hs1.
      rewrite (truncate_try_not_writable _ length _ _ Hw') in Hrr, Hrf, Hrc.
      cbn in Hrr, Hrf, Hrc.
      rewrite Hout. split; [|split].
      * rewrite convert_fs_errors_result, try_finally_result.
        rewrite (truncate_try_not_writable _ length _ _ Hw'). cbn. rewrite Hrr.
        destruct (stream_close h b2) as [[[]|e] b3]; cbn; [reflexivity|].
        now rewrite exit_idempotent.
      * rewrite convert_fs_errors_state, try_finally_state.
        now rewrite (truncate_try_not_writable _ length _ _ Hw').
      * rewrite convert_fs_errors_state, try_finally_state.
        rewrite (truncate_try_not_writable _ length _ _ Hw'). cbn.
        rewrite Hrc, Hs1. cbn. now rewrite <- !app_assoc.
    + intros b2 b3 b4 p n Hw Hseek Htr.
      assert (Hw' : stream_writable h (fs s1) = (Returns true, b2))
        by now rewrite Hs1.
      rewrite (truncate_try_writable _ length _ _ _ _ _ _ Hw' Hseek Htr)
        in Hrr, Hrf, Hrc.
      cbn in Hrr, Hrf, Hrc.
      rewrite Hout. split; [|split].
      * rewrite convert_fs_errors_result, try_finally_result.
        rewrite (truncate_try_writable _ length _ _ _ _ _ _ Hw' Hseek Htr). cbn.
        rewrite Hrr.
        destruct (stream_close h b4) as [[[]|e] b5]; cbn; [reflexivity|].
        now rewrite exit_idempotent.
      * rewrite convert_fs_errors_state, try_finally_state.
        now rewrite (truncate_try_writable _ length _ _ _ _ _ _ Hw' Hseek Htr).
      * rewrite convert_fs_errors_state, try_finally_state.
        rewrite (truncate_try_writable _ length _ _ _ _ _ _ Hw' Hseek Htr). cbn.
        rewrite Hrc, Hs1. cbn. now rewrite <- !app_assoc.
Qed.

(** [truncate("/d/f", 2)] on the sample filesystem: no descriptor stays
    behind and the file has two bytes. *)
Lemma truncate_without_descriptor_witness :
  descriptors (truncate "/d/f" 2 None MemFS.start).2 = ∅
  /\ (truncate "/d/f" 2 None MemFS.start).1 = Returns tt
  /\ MemFS.nodes (fs (truncate "/d/f" 2 None MemFS.start).2) !! "/d/f"
     = Some (MemFS.File "he").
Proof.
  destruct (truncate_without_descriptor (PF := linux_flags) (BE := MemFS.backend)
              "/d/f" 2 MemFS.start eq_refl)
    as (Hd & Hrest).
  split; [exact Hd|].
  assert (Hob : fs_openbin "/d/f" "r+" (fs MemFS.start)
                = (Returns 0%nat, fs (open "/d/f" O_RDWR MemFS.start).2))
    by (vm_compute; reflexivity).
  destruct (Hrest _ _ Hob) as (_ & _ & Hok).
  edestruct Hok as (Hr & Hf & _);
    [vm_compute; reflexivity|vm_compute; reflexivity|vm_compute; reflexivity|].
  split.
  - rewrite Hr. vm_compute. reflexivity.
  - rewrite Hf. vm_compute. reflexivity.
Defined.

(** C9: [truncate] called with descriptor 0.  [0] is false in
    [fd or self.open(...)], so the call opens a descriptor of its own; when
    that [open] returns [fd] (in mode [r+]), [fd] was free before (it is
    not 0 when 0 was bound), every stream call of [truncate] is made on
    the stream of [fd], none of them is a close, and the table afterwards
    is the table with [fd] bound: the descriptor is still open.  If the
    stream is writable and the seek and the truncation return, so does the
    call. *)
Theorem truncate_descriptor_zero_leaks
  {B H : Type} {PF : PosixFlags} {FP : FsPath} {BE : Backend B H}
  (path : string) (length : Z) (s s1 : adapter B H) (fd : nat) :
  Z.land O_RDWR O_TRUNC = 0 ->
  open path O_RDWR s = (Returns fd, s1) ->
  let out := truncate path length (Some 0%nat) s in
  exists h,
    fs_openbin path "r+" (fs s) = (Returns h, fs s1)
    /\ descriptors s !! fd = None
    /\ (is_Some (descriptors s !! 0%nat) -> fd <> 0%nat)
    /\ descriptors out.2 = <[fd := h]> (descriptors s)
    /\ descriptors out.2 !! fd = Some h
    /\ (exists t,
           calls out.2 = calls s ++ Ev (Copenbin path "r+") None :: t
           /\ Forall (truncating_call h length) t)
    /\ (forall b2 b3 b4 p n,
           stream_writable h (fs s1) = (Returns true, b2) ->
           stream_seek h 0 b2 = (Returns p, b3) ->
           stream_truncate h length b3 = (Returns n, b4) ->
           out.1 = Returns tt /\ fs out.2 = b4).
Proof.
  intros Htrunc Hopen out.
  destruct (open_returns _ _ _ _ _ Hopen)
    as (mode & h & b1 & Hmode & Hob & [Hfree _] & Hs1).
  rewrite (open_mode_O_RDWR Htrunc) in Hmode. injection Hmode as <-.
  assert (Hh : descriptors s1 !! fd = Some h).
  { rewrite Hs1. cbn. now rewrite lookup_insert_eq. }
  assert (Hout : out = convert_fs_errors
                         (try_finally (truncate_try h length) (ret tt)) s1).
  { exact (truncate_after_open _ _ (Some 0%nat) _ _ _ _ (or_intror eq_refl) Hopen Hh). }
  destruct (truncate_try_frame h length s1) as (Hd & t & Ht & Hon).
  assert (Hstate : out.2 = (truncate_try h length s1).2).
  { rewrite Hout, convert_fs_errors_state, try_finally_state. reflexivity. }
  exists h. split; [now rewrite Hs1|]. split; [exact Hfree|]. split.
  { intros [h0 H0] ->. rewrite Hfree in H0. discriminate. }
  split; [now rewrite Hstate, Hd, Hs1|].
  split; [now rewrite Hstate, Hd|]. split.
  - exists t. split; [|exact Hon].
    rewrite Hstate, Ht, Hs1. cbn. now rewrite <- app_assoc.
  - intros b2 b3 b4 p n Hw Hseek Htr. split.
    + rewrite Hout, convert_fs_errors_result, try_finally_result.
      now rewrite (truncate_try_writable _ length _ _ _ _ _ _ Hw Hseek Htr).
    + rewrite Hstate.
      now rewrite (truncate_try_writable _ length _ _ _ _ _ _ Hw Hseek Htr).
Qed.

(** The sample filesystem with [/d/f] open as descriptor 0:
    [truncate("/d/f", 2, 0)] leaves descriptors 0 and 1 bound. *)
Lemma truncate_descriptor_zero_leaks_witness :
  let s := (open "/d/f" O_RDWR MemFS.start).2 in
  is_Some (descriptors s !! 0%nat)
  /\ exists h, descriptors (truncate "/d/f" 2 (Some 0%nat) s).2
               = <[1%nat := h]> (descriptors s)
               /\ descriptors (truncate "/d/f" 2 (Some 0%nat) s).2 !! 1%nat = Some h.
Proof.
  intros s. split.
  - exists 0%nat. vm_compute. reflexivity.
  - assert (Hopen : open "/d/f" O_RDWR s = (Returns 1%nat, (open "/d/f" O_RDWR s).2))
      by (vm_compute; reflexivity).
    destruct (truncate_descriptor_zero_leaks (PF := linux_flags)
                "/d/f" 2 s _ 1%nat eq_refl Hopen)
      as (h & _ & _ & _ & Hd & Hb & _).
    exists h. split; [exact Hd|exact Hb].
Defined.

(** ** [write] and [read] *)

(** [write] on a stream that is not writable: the seek has been made
    when [EINVAL] is raised. *)
Lemma write_not_writable
  {B H : Type} {PF : PosixFlags} {FP : FsPath} {BE : Backend B H}
  (path data : string) (offset : Z) (fd : nat) (s : adapter B H)
  (fh : H) (p : Z) (b1 b2 : B) :
  descriptors s !! fd = Some fh ->
  stream_seek fh offset (fs s) = (Returns p, b1) ->
  stream_writable fh b1 = (Returns false, b2) ->
  write path data offset fd s
  = (Raises (FuseOSError (Some EINVAL)),
     Adapter (descriptors s) b2
       (calls s ++ [Ev (Cseek fh offset) None; Ev (Cwritable fh) None])).
Proof.
  intros Hfd Hseek Hw.
  unfold write, convert_fs_errors, bind, descriptors_getitem, invoke.
  rewrite Hfd. cbn. rewrite Hseek. cbn. rewrite Hw. cbn.
  now rewrite <- app_assoc.
Qed.

(** [read] on a stream that is not readable: [EINVAL] without a seek. *)
Lemma read_not_readable
  {B H : Type} {PF : PosixFlags} {FP : FsPath} {BE : Backend B H}
  (path : string) (size offset : Z) (fd : nat) (s : adapter B H)
  (handle : H) (b1 : B) :
  descriptors s !! fd = Some handle ->
  stream_readable handle (fs s) = (Returns false, b1) ->
  read path size offset fd s
  = (Raises (FuseOSError (Some EINVAL)),
     Adapter (descriptors s) b1 (calls s ++ [Ev (Creadable handle) None])).
Proof.
  intros Hfd Hr.
  unfold read, convert_fs_errors, bind, descriptors_getitem, invoke.
  rewrite Hfd. cbn. now rewrite Hr.
Qed.

(** C7, on the sample filesystem with [/d/f] open read-only as
    descriptor 0 and its stream at position 0:
    [write("/d/f", "xy", 5, 0)] fails with [EINVAL], and the stream is at
    position 5 afterwards; the seek is logged before the [writable] test.
    [read] on an append-only stream fails the same way and leaves the
    position at 0. *)
Theorem write_seeks_before_refusing :
  let s := (open "/d/f" O_RDONLY MemFS.start).2 in
  let out := write "/d/f" "xy" 5 0%nat s in
  MemFS.s_pos <$> (MemFS.streams (fs s) !! 0%nat) = Some 0
  /\ out.1 = Raises (FuseOSError (Some EINVAL))
  /\ MemFS.s_pos <$> (MemFS.streams (fs out.2) !! 0%nat) = Some 5
  /\ calls out.2 = calls s ++ [Ev (Cseek 0%nat 5) None; Ev (Cwritable 0%nat) None]
  /\ let s' := (open "/d/f" (Z.lor O_WRONLY O_APPEND) MemFS.start).2 in
     let out' := read "/d/f" 2 5 0%nat s' in
     out'.1 = Raises (FuseOSError (Some EINVAL))
     /\ MemFS.s_pos <$> (MemFS.streams (fs out'.2) !! 0%nat) = Some 0.
Proof. vm_compute. repeat split; reflexivity. Qed.

(** ** [_stat_from_info] *)


Lemma set_if_some_other (key key' : string) (v : option Z) (result : gmap string Z) :
  key <> key' -> set_if_some key v result !! key' = result !! key'.
Proof.
  intros Hne. destruct v; cbn; [|reflexivity]. now rewrite lookup_insert_ne.
Qed.

(** The mode after the [details] part: the type bit alone. *)
Lemma st_mode_of_details (d : details_ns) (result : gmap string Z) :
  (if decide (type_ d = ResourceType.directory)
   then <["st_mode" := S_IFDIR]> result
   else <["st_mode" := S_IFREG]> result) !! "st_mode"
  = Some (if decide (type_ d = ResourceType.directory) then S_IFDIR else S_IFREG).
Proof. destruct (decide _); now rewrite lookup_insert_eq. Qed.

Lemma st_mode_nlink (n : option string) (result : gmap string Z) :
  match n with
  | Some n => if str_in n "/" then <["st_nlink" := 2]> result else result
  | None => result
  end !! "st_mode" = result !! "st_mode".
Proof.
  destruct n as [n|]; [|reflexivity].
  destruct (str_in n "/"); [|reflexivity]. now rewrite lookup_insert_ne.
Qed.




(** ** [rename] *)

(** [p in '/']: [p] is ["/"] or empty. *)
Lemma str_in_slash (p : string) : str_in p "/" = is_root p.
Proof.
  unfold is_root. destruct p as [|c p'].
  - cbn. symmetry. apply bool_decide_eq_true. now right.
  - cbn [str_in String.prefix].
    destruct (ascii_dec c "/") as [->|Hc].
    + destruct p' as [|c' p'']; cbn.
      * symmetry. apply bool_decide_eq_true. now left.
      * symmetry. apply bool_decide_eq_false. intros [E|E]; discriminate.
    + cbn. symmetry. apply bool_decide_eq_false.
      intros [E|E]; [|discriminate]. injection E as -> _. now apply Hc.
Qed.



Section RenameFacts.
Context {B H : Type} {PF : PosixFlags} {FP : FsPath} {BE : Backend B H}.



End RenameFacts.

(** *** The call log of [rename] *)

Lemma app_eq_middle {A} (P : A -> Prop) (t1 t2 pre post : list A) (x : A) :
  Forall P t1 -> ~ P x ->
  t1 ++ t2 = pre ++ x :: post ->
  exists pre', pre = t1 ++ pre' /\ t2 = pre' ++ x :: post.
Proof.
  revert pre. induction t1 as [|y t1 IH]; intros pre Hall Hx E.
  - exists pre. auto.
  - apply Forall_cons in Hall as [Hy Hall].
    destruct pre as [|z pre]; cbn in E; injection E as -> E.
    + now contradiction Hx.
    + destruct (IH pre Hall Hx E) as (pre' & -> & ->). exists pre'. auto.
Qed.

Section LogFacts.
Context {B H : Type} {BE : Backend B H}.

Lemma quiet_ret {A} (a : A) : quiet (B := B) (H := H) (ret a).
Proof.
  intros s. exists []. unfold new_calls. cbn. rewrite app_nil_r. auto.
Qed.

Lemma quiet_raise {A} (e : exception) : quiet (B := B) (H := H) (A := A) (raise e).
Proof.
  intros s. exists []. unfold new_calls. cbn. rewrite app_nil_r. auto.
Qed.

Lemma quiet_invoke {A} (c : call H) (m : st B A) :
  is_move c = false -> quiet (invoke c m).
Proof.
  intros Hc s. unfold invoke. destruct (m (fs s)) as [r b].
  eexists. split; [reflexivity|]. now repeat constructor.
Qed.

Lemma quiet_bind {A A'} (m : st (adapter B H) A) (k : A -> st (adapter B H) A') :
  quiet m -> (forall a, quiet (k a)) -> quiet (bind m k).
Proof.
  intros Hm Hk s. unfold bind. destruct (Hm s) as (t1 & E1 & F1).
  destruct (m s) as [[a|e] s1]; cbn in E1.
  - destruct (Hk a s1) as (t2 & E2 & F2). exists (t1 ++ t2). split.
    + unfold new_calls in *. rewrite E2, E1. now rewrite app_assoc.
    + now apply Forall_app.
  - exists t1. auto.
Qed.

Lemma quiet_check_components (components : list string) :
  quiet (check_components components).
Proof.
  induction components as [|c rest IH]; cbn [check_components].
  - apply quiet_ret.
  - apply quiet_bind; [now apply quiet_invoke|].
    intros []; cbn; [exact IH|apply quiet_raise].
Qed.


(** A single call decides the outcome, whatever it is. *)
Lemma invoke_ends_with_move {A} (c : call H) (m : st B A) :
  ends_with_move (invoke c m).
Proof.
  intros s. unfold invoke. destruct (m (fs s)) as [r b].
  eexists. split; [reflexivity|].
  intros pre ev post E _. cbn.
  destruct pre as [|x pre]; cbn in E.
  - now injection E as <- <-.
  - injection E as _ E. now destruct pre.
Qed.

Lemma bind_ends_with_move {A A'}
      (m : st (adapter B H) A) (k : A -> st (adapter B H) A') :
  quiet m -> (forall a, ends_with_move (k a)) -> ends_with_move (bind m k).
Proof.
  intros Hm Hk s. unfold bind. destruct (Hm s) as (t1 & E1 & F1).
  destruct (m s) as [[a|e] s1]; cbn in E1.
  - destruct (Hk a s1) as (t2 & E2 & D2). exists (t1 ++ t2). split.
    + unfold new_calls in *. rewrite E2, E1. now rewrite app_assoc.
    + intros pre ev post E Hmove.
      destruct (app_eq_middle (fun ev => is_move (ev_call ev) = false)
                  t1 t2 pre post ev F1) as (pre' & _ & E').
      * rewrite Hmove. discriminate.
      * exact E.
      * exact (D2 pre' ev post E' Hmove).
  - exists t1. split; [exact E1|].
    intros pre ev post -> Hmove. exfalso.
    apply Forall_app in F1 as [_ F]. apply Forall_cons in F as [F _].
    rewrite F in Hmove. discriminate.
Qed.

(** Behind the decorator the outcome of the move is translated. *)
Lemma convert_move_is_last {A} (m : st (adapter B H) A) (s : adapter B H) :
  ends_with_move m ->
  exists t, new_calls s (convert_fs_errors m s).2 t
            /\ move_is_last t (convert_fs_errors m s).1.
Proof.
  intros Hm. destruct (Hm s) as (t & E & D). exists t.
  rewrite convert_fs_errors_state. split; [exact E|].
  intros pre ev post Et Hmove.
  destruct (D pre ev post Et Hmove) as [-> Hr]. split; [reflexivity|].
  rewrite convert_fs_errors_result, <- Hr. now destruct ((m s).1).
Qed.

End LogFacts.


(** ** The operations on the sample filesystem *)

Example FILE_ERRORS_bound_classes :
  map _ConvertFSErrors.FILE_ERRORS_get
      [KeyError; InsufficientStorage; OperationTimeout; PermissionDenied;
       RemoteConnectionError; RemoveRootError; Unsupported; InvalidPath;
       InvalidCharsInPath; DestinationExists; DirectoryExists;
       DirectoryNotEmpty; FileExists; DirectoryExpected; FileExpected;
       ResourceNotFound; ResourceReadOnly; IllegalBackReference]
  = map Some
      [EBADF; ENOSPC; ETIMEDOUT; EACCES; ENONET; EPERM; ENOTSUP; EINVAL;
       EINVAL; EEXIST; EEXIST; ENOTEMPTY; EEXIST; ENOTDIR; EISDIR;
       ENOENT; EROFS; EINVAL].
Proof. reflexivity. Qed.

Example release_of_unbound_descriptor :
  release "/d/f" 7%nat MemFS.start
  = (Raises (FuseOSError (Some EBADF)), MemFS.start).
Proof. reflexivity. Qed.

(** Access mode 3 binds no mode: the error is not a filesystem error and
    passes the translator unchanged. *)
Example open_with_access_mode_3 :
  (open "/d/f" 3 MemFS.start).1 = Raises UnboundLocalError_exc
  /\ descriptors (open "/d/f" 3 MemFS.start).2 = ∅.
Proof. vm_compute. split; reflexivity. Qed.

Example rename_root :
  rename "/" "/g" MemFS.start
  = (Raises (FuseOSError (Some ENOENT)),
     Adapter ∅ MemFS.sample
       [Ev (Cvalidatepath "/") None; Ev (Cvalidatepath "/g") None]).
Proof. vm_compute. reflexivity. Qed.

Example rename_into_own_subtree :
  rename "/d" "/d/x" MemFS.start
  = (Raises (FuseOSError (Some EINVAL)),
     Adapter ∅ MemFS.sample
       [Ev (Cvalidatepath "/d") None; Ev (Cvalidatepath "/d/x") None]).
Proof. vm_compute. reflexivity. Qed.

Example rename_through_a_file :
  rename "/d/f/x" "/g" MemFS.start
  = (Raises (FuseOSError (Some ENOTDIR)),
     Adapter ∅ MemFS.sample
       [Ev (Cvalidatepath "/d/f/x") None; Ev (Cvalidatepath "/g") None;
        Ev (Cisdir "/") None; Ev (Cisdir "/d") None; Ev (Cisdir "/d/f") None]).
Proof. vm_compute. reflexivity. Qed.

Example rename_file_onto_directory :
  (rename "/d/f" "/d" MemFS.start).1 = Raises (FuseOSError (Some EISDIR))
  /\ fs (rename "/d/f" "/d" MemFS.start).2 = MemFS.sample.
Proof. vm_compute. split; reflexivity. Qed.

Example rename_directory_onto_non_empty_directory :
  let s := (bind (mkdir "/e" 0) (fun _ => create "/e/g" 0) MemFS.start).2 in
  (rename "/d" "/e" s).1 = Raises (FuseOSError (Some ENOTEMPTY))
  /\ fs (rename "/d" "/e" s).2 = fs s.
Proof. vm_compute. split; reflexivity. Qed.

Example rename_directory_to_new_name :
  let out := rename "/d" "/e" MemFS.start in
  out.1 = Returns tt
  /\ MemFS.nodes (fs out.2) !! "/d" = None
  /\ MemFS.nodes (fs out.2) !! "/e" = Some MemFS.Dir
  /\ MemFS.nodes (fs out.2) !! "/e/f" = Some (MemFS.File "hello")
  /\ map ev_call (calls out.2)
     = [Cvalidatepath "/d"; Cvalidatepath "/e"; Cisdir "/"; Cgettype "/d";
        Cexists "/e"; Cmakedir "/e"; Cisempty "/e"; Cmovedir "/d" "/e"].
Proof. vm_compute. repeat split; reflexivity. Qed.

(** * Further properties *)

(** ** The error translator, further *)

Lemma isinstance_FuseOSError (code : option errno) :
  isinstance (FuseOSError code) [FSError; KeyError] = false.
Proof. reflexivity. Qed.

(** X1: whatever leaves [__exit__], and so whatever a decorated method
    raises, is not an instance of [FSError] or of [KeyError]: a backend
    error or a failed descriptor lookup never reaches the host as
    itself. *)
Theorem decorated_method_raises_outside_taxonomy :
  (forall e : exception,
      isinstance (_ConvertFSErrors.__exit__ e) [FSError; KeyError] = false)
  /\ forall (S A : Type) (m : st S A) (s : S),
      match (convert_fs_errors m s).1 with
      | Returns _ => (m s).1 = (convert_fs_errors m s).1
      | Raises e => isinstance e [FSError; KeyError] = false
      end.
Proof.
  assert (Hexit : forall e : exception,
             isinstance (_ConvertFSErrors.__exit__ e) [FSError; KeyError] = false).
  { intros e. unfold _ConvertFSErrors.__exit__.
    destruct (isinstance e [FSError; KeyError]) eqn:E;
      [apply isinstance_FuseOSError|exact E]. }
  split; [exact Hexit|].
  intros S A m s. unfold convert_fs_errors.
  destruct (m s) as [[a|e] s']; cbn; [reflexivity|apply Hexit].
Qed.

(** What a decorated method raises passes the translator unchanged. *)
Lemma decorated_raise_is_translated {S A} (m : st S A) (s s' : S) (e : exception) :
  convert_fs_errors m s = (Raises e, s') -> _ConvertFSErrors.__exit__ e = e.
Proof.
  unfold convert_fs_errors. destruct (m s) as [[a|e0] s0]; [discriminate|].
  intros [= <- _]. apply exit_idempotent.
Qed.

(** X2: when the [open] inside [truncate] raises, [truncate] raises the
    same exception from the same state: the inner translation is final
    and no stream call is made. *)
Theorem truncate_passes_open_error
  {B H : Type} {PF : PosixFlags} {FP : FsPath} {BE : Backend B H}
  (path : string) (length : Z) (s s1 : adapter B H) (e : exception) :
  open path O_RDWR s = (Raises e, s1) ->
  truncate path length None s = (Raises e, s1)
  /\ truncate path length (Some 0%nat) s = (Raises e, s1)
  /\ descriptors s1 = descriptors s.
Proof.
  intros Hopen.
  assert (He : _ConvertFSErrors.__exit__ e = e)
    by exact (decorated_raise_is_translated _ _ _ _ Hopen).
  split; [|split].
  - unfold truncate. rewrite convert_fs_errors_bind, Hopen. now rewrite He.
  - unfold truncate. rewrite convert_fs_errors_bind, Hopen. now rewrite He.
  - exact (open_raises _ _ _ _ _ Hopen).
Qed.

(** [truncate] of a file that does not exist, on the sample filesystem. *)
Lemma truncate_passes_open_error_witness :
  truncate "/nope" 0 None MemFS.start
  = (Raises (FuseOSError (Some ENOENT)), (open "/nope" O_RDWR MemFS.start).2).
Proof.
  apply (truncate_passes_open_error (PF := linux_flags) "/nope" 0 MemFS.start).
  vm_compute. reflexivity.
Defined.

(** ** The descriptor table, further *)

Section UnboundDescriptor.
Context {B H : Type} {PF : PosixFlags} {FP : FsPath} {BE : Backend B H}.
Variables (path data : string) (size offset length : Z) (fd : nat).
Variable s : adapter B H.
Hypothesis Hfd : descriptors s !! fd = None.

Lemma flush_unbound : flush path fd s = (Raises (FuseOSError (Some EBADF)), s).
Proof.
  unfold flush. rewrite convert_fs_errors_bind.
  unfold descriptors_getitem. now rewrite Hfd.
Qed.

Lemma read_unbound :
  read path size offset fd s = (Raises (FuseOSError (Some EBADF)), s).
Proof.
  unfold read. rewrite convert_fs_errors_bind.
  unfold descriptors_getitem. now rewrite Hfd.
Qed.

Lemma write_unbound :
  write path data offset fd s = (Raises (FuseOSError (Some EBADF)), s).
Proof.
  unfold write. rewrite convert_fs_errors_bind.
  unfold descriptors_getitem. now rewrite Hfd.
Qed.

Lemma truncate_unbound :
  fd <> 0%nat ->
  truncate path length (Some fd) s = (Raises (FuseOSError (Some EBADF)), s).
Proof.
  intros Hne. destruct fd as [|n]; [now contradiction Hne|].
  unfold truncate. rewrite convert_fs_errors_bind, ret_unfold.
  rewrite convert_fs_errors_bind. unfold descriptors_getitem. now rewrite Hfd.
Qed.

End UnboundDescriptor.

(** X3: every method that takes a descriptor fails with [EBADF] on an id
    that is not bound, and leaves the table, the backend and the call log
    as they were ([truncate] for an id other than 0, which it takes for
    no descriptor). *)
Theorem unbound_descriptor_is_EBADF
  {B H : Type} {PF : PosixFlags} {FP : FsPath} {BE : Backend B H}
  (path data : string) (size offset length : Z) (fd : nat) (s : adapter B H) :
  descriptors s !! fd = None ->
  flush path fd s = (Raises (FuseOSError (Some EBADF)), s)
  /\ read path size offset fd s = (Raises (FuseOSError (Some EBADF)), s)
  /\ write path data offset fd s = (Raises (FuseOSError (Some EBADF)), s)
  /\ release path fd s = (Raises (FuseOSError (Some EBADF)), s)
  /\ (fd <> 0%nat ->
      truncate path length (Some fd) s = (Raises (FuseOSError (Some EBADF)), s)).
Proof.
  intros Hfd. split; [|split; [|split; [|split]]].
  - now apply flush_unbound.
  - now apply read_unbound.
  - now apply write_unbound.
  - now apply release_unbound.
  - now apply truncate_unbound.
Qed.

Lemma unbound_descriptor_is_EBADF_witness :
  read "/d/f" 4 0 3%nat MemFS.start
  = (Raises (FuseOSError (Some EBADF)), MemFS.start)
  /\ truncate "/d/f" 0 (Some 3%nat) MemFS.start
     = (Raises (FuseOSError (Some EBADF)), MemFS.start).
Proof.
  destruct (unbound_descriptor_is_EBADF (PF := linux_flags)
              "/d/f" "" 4 0 0 3%nat MemFS.start eq_refl)
    as (_ & Hread & _ & _ & Htrunc).
  split; [exact Hread|]. apply Htrunc. discriminate.
Defined.

(** X4: [release] of the descriptor an [open] has just returned closes
    the stream that [open] bound, as its only call, and puts the table
    back to what it was before the [open]. *)
Theorem open_then_release_restores_table
  {B H : Type} {PF : PosixFlags} {FP : FsPath} {BE : Backend B H}
  (path path' : string) (flags : Z) (s s1 : adapter B H) (fd : nat) :
  open path flags s = (Returns fd, s1) ->
  exists h,
    descriptors s1 !! fd = Some h
    /\ descriptors (release path' fd s1).2 = descriptors s
    /\ calls (release path' fd s1).2
       = calls s1 ++ [Ev (Cclose h) (raised (stream_close h (fs s1)).1)].
Proof.
  intros Hopen.
  destruct (open_returns _ _ _ _ _ Hopen)
    as (mode & h & b' & _ & _ & [Hfree _] & Hs1).
  assert (Hh : descriptors s1 !! fd = Some h).
  { rewrite Hs1. cbn. now rewrite lookup_insert_eq. }
  destruct (release_bound path' fd h s1 Hh) as (Hd & _ & _ & Hc).
  exists h. split; [exact Hh|]. split; [|exact Hc].
  rewrite Hd, Hs1. cbn. now apply delete_insert_id.
Qed.

Lemma open_then_release_restores_table_witness :
  descriptors (release "/d/f" 0%nat (open "/d/f" O_RDONLY MemFS.start).2).2 = ∅.
Proof.
  destruct (open_then_release_restores_table (PF := linux_flags)
              "/d/f" "/d/f" O_RDONLY MemFS.start
              (open "/d/f" O_RDONLY MemFS.start).2 0%nat)
    as (h & _ & Hd & _).
  - vm_compute. reflexivity.
  - exact Hd.
Defined.

(** X5: [release] removes the binding before it closes the stream: the
    id is unbound afterwards whether or not the close raised, the other
    bindings are as before, and a second [release] or a [read] on the id
    fails with [EBADF]. *)
Theorem release_unbinds_before_closing
  {B H : Type} {PF : PosixFlags} {FP : FsPath} {BE : Backend B H}
  (path data : string) (size offset : Z) (fd : nat) (s : adapter B H) :
  is_Some (descriptors s !! fd) ->
  let s' := (release path fd s).2 in
  descriptors s' !! fd = None
  /\ (forall k, k <> fd -> descriptors s' !! k = descriptors s !! k)
  /\ release path fd s' = (Raises (FuseOSError (Some EBADF)), s')
  /\ read path size offset fd s' = (Raises (FuseOSError (Some EBADF)), s')
  /\ write path data offset fd s' = (Raises (FuseOSError (Some EBADF)), s').
Proof.
  intros [h Hh] s'.
  destruct (release_bound path fd h s Hh) as (Hd & _).
  assert (Hnone : descriptors s' !! fd = None).
  { subst s'. rewrite Hd. apply lookup_delete_eq. }
  split; [exact Hnone|]. split.
  - intros k Hk. subst s'. rewrite Hd. now apply lookup_delete_ne.
  - split; [now apply release_unbound|].
    split; [now apply read_unbound|now apply write_unbound].
Qed.

Lemma release_unbinds_before_closing_witness :
  let s := (open "/d/f" O_RDONLY MemFS.start).2 in
  (release "/d/f" 0%nat s).1 = Returns tt
  /\ (release "/d/f" 0%nat (release "/d/f" 0%nat s).2).1
     = Raises (FuseOSError (Some EBADF)).
Proof.
  intros s. split; [vm_compute; reflexivity|].
  assert (Hb : is_Some (descriptors s !! 0%nat))
    by (exists 0%nat; vm_compute; reflexivity).
  destruct (release_unbinds_before_closing (PF := linux_flags)
              "/d/f" "" 0 0 0%nat s Hb) as (_ & _ & Hrel & _).
  now rewrite Hrel.
Defined.

(** X6: from a new instance, opens that all return hand out the ids
    [0, 1, 2, ...] in order, and the table then binds exactly these. *)
Lemma smallest_unused_of_initial_segment {H} (d : gmap nat H) (n k : nat) :
  dom d = set_seq 0 n -> smallest_unused d k -> k = n.
Proof.
  intros Hdom Hk. apply (smallest_unused_unique d); [exact Hk|]. split.
  - apply not_elem_of_dom. rewrite Hdom, elem_of_set_seq. lia.
  - intros m Hm. apply elem_of_dom. rewrite Hdom, elem_of_set_seq. lia.
Qed.

Lemma open_each_from_segment
  {B H : Type} {PF : PosixFlags} {FP : FsPath} {BE : Backend B H}
  (requests : list (string * Z)) (n : nat) (s s' : adapter B H) (fds : list nat) :
  dom (descriptors s) = set_seq 0 n ->
  open_each requests s = (Returns fds, s') ->
  fds = seq n (length requests)
  /\ dom (descriptors s') = set_seq 0 (n + length requests).
Proof.
  revert n s fds. induction requests as [|[p f] rest IH]; intros n s fds Hdom.
  - cbn. intros [= <- <-]. rewrite Nat.add_0_r. auto.
  - cbn [open_each fst snd]. rewrite bind_unfold.
    destruct (open p f s) as [[fd|e] s1] eqn:Hopen; [|discriminate].
    destruct (open_returns _ _ _ _ _ Hopen) as (mode & h & b' & _ & _ & Hsm & Hs1).
    assert (fd = n) as -> by exact (smallest_unused_of_initial_segment _ _ _ Hdom Hsm).
    assert (Hdom1 : dom (descriptors s1) = set_seq 0 (S n)).
    { rewrite Hs1. cbn [descriptors]. rewrite dom_insert_L, Hdom.
      now rewrite (set_seq_S_end_union_L (C := gset nat) 0 n). }
    rewrite bind_unfold.
    destruct (open_each rest s1) as [[fds'|e] s2] eqn:Hrest; [|discriminate].
    rewrite ret_unfold. intros [= <- <-].
    destruct (IH (S n) s1 fds' Hdom1 Hrest) as (-> & Hdom2).
    cbn [length seq]. split; [reflexivity|].
    rewrite Hdom2. f_equal. lia.
Qed.

Theorem opens_from_new_instance_count_up
  {B H : Type} {PF : PosixFlags} {FP : FsPath} {BE : Backend B H}
  (filesystem : B) (requests : list (string * Z))
  (s' : adapter B H) (fds : list nat) :
  open_each requests (__init__ filesystem) = (Returns fds, s') ->
  fds = seq 0 (length requests)
  /\ dom (descriptors s') = set_seq 0 (length requests).
Proof.
  intros Hrun.
  apply (open_each_from_segment requests 0 (__init__ filesystem)); [|exact Hrun].
  cbn. apply dom_empty_L.
Qed.

Lemma opens_from_new_instance_count_up_witness :
  (open_each [("/d/f", O_RDONLY); ("/d/f", O_RDWR); ("/d/f", O_RDONLY)]
             (__init__ MemFS.sample)).1
  = Returns [0; 1; 2]%nat.
Proof.
  destruct (open_each [("/d/f", O_RDONLY); ("/d/f", O_RDWR); ("/d/f", O_RDONLY)]
                      (__init__ (H := nat) MemFS.sample)) as [r s'] eqn:E.
  assert (exists fds, r = Returns fds) as [fds ->].
  { revert E. vm_compute. intros [= <- _]. eauto. }
  destruct (opens_from_new_instance_count_up (PF := linux_flags) _ _ _ _ E)
    as [-> _].
  reflexivity.
Defined.

Lemma decorated_open
  {B H : Type} {PF : PosixFlags} {FP : FsPath} {BE : Backend B H}
  (path : string) (flags : Z) (s : adapter B H) :
  convert_fs_errors (open path flags) s = open path flags s.
Proof. unfold open. apply convert_fs_errors_idempotent. Qed.

(** X7: [create] binds one descriptor or none: either it raises and the
    table is what it was, or it returns the smallest id that was free and
    the table has grown by that one binding. *)
Theorem create_binds_one_or_nothing
  {B H : Type} {PF : PosixFlags} {FP : FsPath} {BE : Backend B H}
  (path : string) (mode : Z) (s : adapter B H) :
  let out := create path mode s in
  (exists e, out.1 = Raises e /\ descriptors out.2 = descriptors s)
  \/ (exists fd h,
         out.1 = Returns fd
         /\ smallest_unused (descriptors s) fd
         /\ descriptors out.2 = <[fd := h]> (descriptors s)).
Proof.
  intros out. subst out. unfold create. rewrite convert_fs_errors_bind.
  unfold invoke. destruct (fs_create path (fs s)) as [[created|e] b'].
  2:{ left. eexists. split; reflexivity. }
  destruct (negb created && truthy (Z.land O_EXCL mode)).
  { left. eexists. split; reflexivity. }
  rewrite decorated_open.
  match goal with |- context [open path mode ?s1] =>
    destruct (open path mode s1) as [[fd|e] s2] eqn:Hopen end.
  - right. destruct (open_returns _ _ _ _ _ Hopen)
      as (m & h & b2 & _ & _ & Hsm & ->).
    exists fd, h. cbn. split; [reflexivity|].
    split; [exact Hsm|reflexivity].
  - left. exists e. cbn. split; [reflexivity|].
    exact (open_raises _ _ _ _ _ Hopen).
Qed.

(** ** What the methods leave alone *)

Section LogsOnly.
Context {B H : Type} {BE : Backend B H}.
Variable P : call H -> Prop.

Lemma logs_only_ret {A} (a : A) : logs_only (B := B) P (ret a).
Proof.
  intros s. split; [reflexivity|]. exists []. unfold new_calls. cbn.
  rewrite app_nil_r. auto.
Qed.

Lemma logs_only_raise {A} (e : exception) : logs_only (B := B) (A := A) P (raise e).
Proof.
  intros s. split; [reflexivity|]. exists []. unfold new_calls. cbn.
  rewrite app_nil_r. auto.
Qed.

Lemma logs_only_invoke {A} (c : call H) (m : st B A) :
  P c -> logs_only P (invoke c m).
Proof.
  intros Hc s. unfold invoke. destruct (m (fs s)) as [r b]. cbn.
  split; [reflexivity|]. eexists. split; [reflexivity|]. now repeat constructor.
Qed.

Lemma logs_only_bind {A A'} (m : st (adapter B H) A) (k : A -> st (adapter B H) A') :
  logs_only P m -> (forall a, logs_only P (k a)) -> logs_only P (bind m k).
Proof.
  intros Hm Hk s. unfold bind. destruct (Hm s) as (D1 & t1 & E1 & F1).
  destruct (m s) as [[a|e] s1]; cbn in D1, E1.
  - destruct (Hk a s1) as (D2 & t2 & E2 & F2). split; [now rewrite D2|].
    exists (t1 ++ t2). split.
    + unfold new_calls in *. rewrite E2, E1. now rewrite app_assoc.
    + now apply Forall_app.
  - split; [exact D1|]. exists t1. auto.
Qed.

Lemma logs_only_convert {A} (m : st (adapter B H) A) :
  logs_only P m -> logs_only P (convert_fs_errors m).
Proof.
  intros Hm s. rewrite convert_fs_errors_state. apply Hm.
Qed.

Lemma logs_only_check_components (components : list string) :
  (forall c, P (Cisdir c)) -> logs_only P (check_components components).
Proof.
  intros HP. induction components as [|c rest IH]; cbn [check_components].
  - apply logs_only_ret.
  - apply logs_only_bind; [now apply logs_only_invoke|].
    intros []; cbn; [exact IH|apply logs_only_raise].
Qed.

End LogsOnly.

(** X8: [flush], [read] and [write] keep the descriptor table, and every
    backend call they make is a call on the stream bound to [fd]; on an
    unbound [fd] they make none. *)
Theorem stream_methods_touch_only_their_stream
  {B H : Type} {PF : PosixFlags} {FP : FsPath} {BE : Backend B H}
  (path data : string) (size offset : Z) (fd : nat) (s : adapter B H) :
  let own c := is_Some (descriptors s !! fd)
               /\ call_stream c = descriptors s !! fd in
  (descriptors (flush path fd s).2 = descriptors s
   /\ exists t, new_calls s (flush path fd s).2 t
                /\ Forall (fun ev => own (ev_call ev)) t)
  /\ (descriptors (read path size offset fd s).2 = descriptors s
      /\ exists t, new_calls s (read path size offset fd s).2 t
                   /\ Forall (fun ev => own (ev_call ev)) t)
  /\ (descriptors (write path data offset fd s).2 = descriptors s
      /\ exists t, new_calls s (write path data offset fd s).2 t
                   /\ Forall (fun ev => own (ev_call ev)) t).
Proof.
  intros own.
  assert (Hget : forall A (k : H -> st (adapter B H) A),
             (forall h, descriptors s !! fd = Some h -> logs_only own (k h)) ->
             descriptors (convert_fs_errors (bind (descriptors_getitem fd) k) s).2
             = descriptors s
             /\ exists t,
                 new_calls s (convert_fs_errors (bind (descriptors_getitem fd) k) s).2 t
                 /\ Forall (fun ev => own (ev_call ev)) t).
  { intros A k Hk. rewrite convert_fs_errors_state, bind_unfold.
    unfold descriptors_getitem. destruct (descriptors s !! fd) as [h|] eqn:Hh.
    - exact (Hk h eq_refl s).
    - split; [reflexivity|]. exists []. unfold new_calls. cbn.
      rewrite app_nil_r. auto. }
  assert (Hown : forall h c, descriptors s !! fd = Some h ->
                             call_stream c = Some h -> own c).
  { intros h c Hh Hc. unfold own. rewrite Hh. eauto. }
  split; [|split].
  - apply Hget. intros h Hh. apply logs_only_invoke. now apply (Hown h).
  - apply Hget. intros h Hh.
    apply logs_only_bind; [apply logs_only_invoke; now apply (Hown h)|].
    intros []; cbn.
    + apply logs_only_bind; [apply logs_only_invoke; now apply (Hown h)|].
      intros _. apply logs_only_invoke. now apply (Hown h).
    + apply logs_only_raise.
  - apply Hget. intros h Hh.
    apply logs_only_bind; [apply logs_only_invoke; now apply (Hown h)|].
    intros _.
    apply logs_only_bind; [apply logs_only_invoke; now apply (Hown h)|].
    intros []; [apply logs_only_invoke; now apply (Hown h)|apply logs_only_raise].
Qed.

(** X9: [mkdir], [rmdir], [unlink] and [rename] keep the descriptor
    table and call no method of any stream: descriptors that are open on
    a resource stay bound when it is removed or moved. *)
Theorem path_methods_leave_streams_alone
  {B H : Type} {PF : PosixFlags} {FP : FsPath} {BE : Backend B H}
  (path old new : string) (mode : Z) :
  let no_stream (c : call H) := call_stream c = None in
  logs_only (B := B) no_stream (mkdir path mode)
  /\ logs_only (B := B) no_stream (rmdir path)
  /\ logs_only (B := B) no_stream (unlink path)
  /\ logs_only (B := B) no_stream (rename old new).
Proof.
  intros no_stream.
  assert (Hinv : forall A c (m : st B A),
             no_stream c -> logs_only (B := B) no_stream (invoke c m))
    by (intros; now apply logs_only_invoke).
  assert (Hchk : forall l, logs_only (B := B) no_stream (check_components l))
    by (intros; now apply logs_only_check_components).
  split; [|split; [|split]]; apply logs_only_convert.
  - now apply Hinv.
  - apply logs_only_bind; [apply Hchk|]. intros _. now apply Hinv.
  - apply logs_only_bind; [apply Hchk|]. intros _. now apply Hinv.
  - apply logs_only_bind; [now apply Hinv|]. intros _old.
    apply logs_only_bind; [now apply Hinv|]. intros _new.
    destruct (str_in _old "/" || str_in _new "/"); [apply logs_only_raise|].
    destruct (isparent _old _new); [apply logs_only_raise|].
    apply logs_only_bind; [apply Hchk|]. intros _.
    apply logs_only_bind; [now apply Hinv|]. intros t.
    destruct (decide (t = ResourceType.directory)) as [Hdir|Hdir].
    + apply logs_only_bind; [now apply Hinv|]. intros e.
      apply logs_only_bind.
      { destruct e; cbn; [apply logs_only_ret|now apply Hinv]. }
      intros _. apply logs_only_bind; [now apply Hinv|]. intros em.
      destruct em; cbn; [now apply Hinv|apply logs_only_raise].
    + apply logs_only_bind; [now apply Hinv|]. intros d.
      destruct d; [apply logs_only_raise|now apply Hinv].
Qed.

(** ** [rmdir] and [unlink] *)

(** X10: in the calls [rmdir] and [unlink] make, the removal, if there is
    one, is the last call and its outcome is the outcome of the method:
    nothing is removed unless every ancestor check has passed. *)
Theorem removal_is_the_last_call
  {B H : Type} {PF : PosixFlags} {FP : FsPath} {BE : Backend B H}
  (path : string) (s : adapter B H) :
  (exists t, new_calls s (rmdir path s).2 t /\ move_is_last t (rmdir path s).1)
  /\ (exists t, new_calls s (unlink path s).2 t
                /\ move_is_last t (unlink path s).1).
Proof.
  split.
  - unfold rmdir. apply convert_move_is_last.
    apply bind_ends_with_move; [apply quiet_check_components|].
    intros _. apply invoke_ends_with_move.
  - unfold unlink. apply convert_move_is_last.
    apply bind_ends_with_move; [apply quiet_check_components|].
    intros _. apply invoke_ends_with_move.
Qed.

(** The ancestor check, when [isdir] answers without changing the
    backend: it asks about the components in order up to the first that
    is not a directory and raises [ENOTDIR] there. *)
Lemma check_components_stops_at_first
  {B H : Type} {BE : Backend B H}
  (pre post : list string) (c : string) (s : adapter B H) (b' : B) :
  (forall x, x ∈ pre -> fs_isdir x (fs s) = (Returns true, fs s)) ->
  fs_isdir c (fs s) = (Returns false, b') ->
  check_components (pre ++ c :: post) s
  = (Raises (FuseOSError (Some ENOTDIR)),
     Adapter (descriptors s) b'
       (calls s ++ map (fun x => Ev (Cisdir x) None) (pre ++ [c]))).
Proof.
  revert s. induction pre as [|x pre IH]; intros s Hpre Hc.
  - cbn [app check_components]. rewrite bind_unfold. unfold invoke.
    rewrite Hc. reflexivity.
  - cbn [app check_components]. rewrite bind_unfold. unfold invoke.
    rewrite (Hpre x) by apply list_elem_of_here. cbn [negb raised].
    rewrite IH.
    + cbn [descriptors calls fs map]. now rewrite <- app_assoc.
    + intros y Hy. cbn [fs]. apply Hpre. now apply list_elem_of_further.
    + exact Hc.
Qed.

(** X11: [unlink] and [rmdir] of a path with an ancestor that is not a
    directory (the ancestors before it being directories) fail with
    [ENOTDIR]; the backend has been asked [isdir] about the ancestors up
    to that one and nothing else. *)
Theorem removal_through_a_non_directory
  {B H : Type} {PF : PosixFlags} {FP : FsPath} {BE : Backend B H}
  (path : string) (pre post : list string) (c : string)
  (s : adapter B H) (b' : B) :
  removelast (recursepath path) = pre ++ c :: post ->
  (forall x, x ∈ pre -> fs_isdir x (fs s) = (Returns true, fs s)) ->
  fs_isdir c (fs s) = (Returns false, b') ->
  let failed :=
    (Raises (A := unit) (FuseOSError (Some ENOTDIR)),
     Adapter (descriptors s) b'
       (calls s ++ map (fun x => Ev (Cisdir x) None) (pre ++ [c]))) in
  unlink path s = failed /\ rmdir path s = failed.
Proof.
  intros Hanc Hpre Hc failed. split.
  - unfold unlink. rewrite convert_fs_errors_bind, Hanc.
    now rewrite (check_components_stops_at_first pre post c s b' Hpre Hc).
  - unfold rmdir. rewrite convert_fs_errors_bind, Hanc.
    now rewrite (check_components_stops_at_first pre post c s b' Hpre Hc).
Qed.

(** [unlink("/d/f/x")] on the sample filesystem, where [/d/f] is a file. *)
Lemma removal_through_a_non_directory_witness :
  unlink "/d/f/x" MemFS.start
  = (Raises (FuseOSError (Some ENOTDIR)),
     Adapter ∅ MemFS.sample
       [Ev (Cisdir "/") None; Ev (Cisdir "/d") None; Ev (Cisdir "/d/f") None]).
Proof.
  apply (removal_through_a_non_directory (PF := linux_flags)
           "/d/f/x" ["/"; "/d"] [] "/d/f" MemFS.start MemFS.sample).
  - reflexivity.
  - intros x Hx. apply elem_of_cons in Hx as [->|Hx]; [reflexivity|].
    apply elem_of_cons in Hx as [->|Hx]; [reflexivity|].
    now apply elem_of_nil in Hx.
  - reflexivity.
Defined.

(** ** [_stat_from_info], further *)

(** The mode of the synthesised record, in every combination of the
    [details] and [access] namespaces. *)
Lemma st_mode_synthesised (info : Info) (umask : Z) :
  ns_stat info = None ->
  st_mode (_stat_from_info info umask)
  = match ns_access info, ns_details info with
    | Some a, Some d =>
      Some (Z.lor (type_bit info)
                  (match permissions a with
                   | Some p => p
                   | None => default_permissions d umask
                   end))
    | Some a, None => Z.lor 0 <$> permissions a
    | None, Some d => Some (type_bit info)
    | None, None => None
    end.
Proof.
  intros Hstat. unfold st_mode, _stat_from_info, type_bit. rewrite Hstat.
  unfold bind, os_umask, ret. cbn [fst].
  rewrite st_mode_nlink.
  destruct (ns_access info) as [a|], (ns_details info) as [d|].
  - rewrite st_mode_of_details. cbn [default].
    destruct (permissions a) as [p|].
    + now rewrite lookup_insert_eq.
    + unfold default_permissions.
      destruct (decide (type_ d = ResourceType.directory));
        now rewrite lookup_insert_eq.
  - rewrite lookup_empty. cbn [default].
    destruct (permissions a) as [p|]; cbn.
    + now rewrite lookup_insert_eq.
    + rewrite !set_if_some_other by discriminate. apply lookup_empty.
  - apply st_mode_of_details.
  - apply lookup_empty.
Qed.

Lemma permission_bits_below_type_bits (p : Z) :
  0 <= p < 4096 -> Z.land p S_IFMT = 0.
Proof.
  intros Hp. apply Z.bits_inj'. intros n Hn.
  rewrite Z.land_spec, Z.bits_0.
  destruct (Z.lt_ge_cases n 12) as [Hlt|Hge].
  - change S_IFMT with (Z.shiftl 15 12).
    rewrite (Z.shiftl_spec_low 15 12 n Hlt). apply andb_false_r.
  - rewrite <- (Z.mod_small p (2 ^ 12)) by (change (2 ^ 12) with 4096; lia).
    rewrite Z.mod_pow2_bits_high by lia. reflexivity.
Qed.

Lemma default_bits_below_type_bits (d : details_ns) (umask : Z) :
  Z.land (default_permissions d umask) S_IFMT = 0.
Proof.
  unfold default_permissions.
  rewrite <- Z.land_assoc, (Z.land_comm (Z.lnot umask)), Z.land_assoc.
  destruct (decide (type_ d = ResourceType.directory)); reflexivity.
Qed.

(** X12: for a resource with the [details] namespace and no [stat]
    namespace, with explicit permission bits (if any) below [0o10000],
    the file-type field of the mode is [S_IFDIR] for a directory and
    [S_IFREG] for anything else, whatever the permissions and the
    umask. *)
Theorem st_mode_file_type (info : Info) (d : details_ns) (umask : Z) :
  ns_stat info = None ->
  ns_details info = Some d ->
  (forall p, explicit_permissions info = Some p -> 0 <= p < 4096) ->
  exists mode,
    st_mode (_stat_from_info info umask) = Some mode
    /\ Z.land mode S_IFMT
       = (if decide (type_ d = ResourceType.directory) then S_IFDIR else S_IFREG).
Proof.
  intros Hstat Hd Hp. rewrite (st_mode_synthesised _ _ Hstat).
  unfold type_bit, explicit_permissions in *. rewrite Hd.
  assert (Htype : Z.land (if decide (type_ d = ResourceType.directory)
                          then S_IFDIR else S_IFREG) S_IFMT
                  = (if decide (type_ d = ResourceType.directory)
                     then S_IFDIR else S_IFREG))
    by (destruct (decide _); reflexivity).
  destruct (ns_access info) as [a|].
  - eexists. split; [reflexivity|].
    rewrite Z.land_lor_distr_l, Htype.
    destruct (permissions a) as [p|].
    + rewrite (permission_bits_below_type_bits p) by now apply Hp.
      apply Z.lor_0_r.
    + rewrite default_bits_below_type_bits. apply Z.lor_0_r.
  - eexists. split; [reflexivity|exact Htype].
Qed.

(** A directory with mode bits [0750] in its [access] namespace. *)
Lemma st_mode_file_type_witness :
  exists mode,
    st_mode (_stat_from_info
               (MkInfo None
                  (Some (Details None None None None None ResourceType.directory))
                  (Some (Access None None (Some 488))) (Some "d")) 18)
    = Some mode
    /\ Z.land mode S_IFMT = S_IFDIR.
Proof.
  apply (st_mode_file_type _
           (Details None None None None None ResourceType.directory) 18);
    [reflexivity|reflexivity|].
  intros p [= <-]. lia.
Defined.

(** X13: when the permission bits are the default (the [access]
    namespace is there without permission bits, [details] is there), no
    permission bit that the umask masks is set in the mode. *)
Theorem default_mode_respects_umask (info : Info) (a : access_ns)
        (d : details_ns) (umask : Z) :
  ns_stat info = None ->
  ns_access info = Some a ->
  permissions a = None ->
  ns_details info = Some d ->
  exists mode,
    st_mode (_stat_from_info info umask) = Some mode
    /\ Z.land mode (Z.land umask o777) = 0
    /\ Z.land mode o777 = default_permissions d umask.
Proof.
  intros Hstat Ha Hp Hd. rewrite (st_mode_synthesised _ _ Hstat).
  unfold type_bit. rewrite Ha, Hd, Hp.
  eexists. split; [reflexivity|].
  assert (Htype : Z.land (if decide (type_ d = ResourceType.directory)
                          then S_IFDIR else S_IFREG) o777 = 0)
    by (destruct (decide _); reflexivity).
  split.
  - rewrite Z.land_lor_distr_l.
    rewrite (Z.land_comm umask o777), Z.land_assoc, Htype, Z.land_0_l.
    unfold default_permissions.
    rewrite <- (Z.land_assoc _ (Z.lnot umask)).
    rewrite (Z.land_assoc (Z.lnot umask)), (Z.land_comm (Z.lnot umask) o777).
    rewrite <- (Z.land_assoc o777 (Z.lnot umask) umask).
    rewrite (Z.land_comm (Z.lnot umask) umask), Z.land_lnot_diag.
    now rewrite !Z.land_0_r.
  - rewrite Z.land_lor_distr_l, Htype, Z.lor_0_l.
    unfold default_permissions.
    rewrite <- Z.land_assoc, (Z.land_comm (Z.lnot umask)), Z.land_assoc.
    destruct (decide (type_ d = ResourceType.directory)); reflexivity.
Qed.

(** A file under umask [027]: mode [0640] on the type bit. *)
Lemma default_mode_respects_umask_witness :
  exists mode,
    st_mode (_stat_from_info
               (MkInfo None
                  (Some (Details None None None None None ResourceType.file))
                  (Some (Access (Some 1000) None None)) (Some "f")) 23)
    = Some mode
    /\ Z.land mode (Z.land 23 o777) = 0
    /\ Z.land mode o777 = 416.
Proof.
  exact (default_mode_respects_umask
           (MkInfo None
              (Some (Details None None None None None ResourceType.file))
              (Some (Access (Some 1000) None None)) (Some "f"))
           (Access (Some 1000) None None)
           (Details None None None None None ResourceType.file) 23
           eq_refl eq_refl eq_refl eq_refl).
Defined.

Lemma st_nlink_lookup (n : option string) (result : gmap string Z) :
  result !! "st_nlink" = None ->
  match n with
  | Some n => if str_in n "/" then <["st_nlink" := 2]> result else result
  | None => result
  end !! "st_nlink"
  = (if bool_decide (n = Some "/" \/ n = Some "") then Some 2 else None).
Proof.
  intros Hr. destruct n as [n|].
  - rewrite str_in_slash. unfold is_root.
    destruct (bool_decide (n = "/" \/ n = "")) eqn:E.
    + rewrite lookup_insert_eq. symmetry.
      rewrite bool_decide_eq_true_2; [reflexivity|].
      apply bool_decide_eq_true in E as [->| ->]; auto.
    + rewrite Hr. symmetry. rewrite bool_decide_eq_false_2; [reflexivity|].
      apply bool_decide_eq_false in E. intros [[= ->]|[= ->]]; apply E; auto.
  - rewrite Hr. symmetry. rewrite bool_decide_eq_false_2; [reflexivity|].
    intros [?|?]; discriminate.
Qed.

(** X14: without a [stat] namespace the link count is set, to 2, exactly
    when the name of the resource is ["/"] or empty; it does not depend
    on the type, so a directory with any other name has no link count. *)
Theorem st_nlink_only_for_root (info : Info) (umask : Z) :
  ns_stat info = None ->
  match (_stat_from_info info umask).1 with
  | Returns result =>
    result !! "st_nlink"
    = (if bool_decide (name info = Some "/" \/ name info = Some "")
       then Some 2 else None)
  | Raises _ => False
  end.
Proof.
  intros Hstat. unfold _stat_from_info. rewrite Hstat.
  unfold bind, os_umask, ret. cbn [fst].
  apply st_nlink_lookup.
  destruct (ns_details info) as [d|], (ns_access info) as [a|]; cbn;
    repeat first
      [ rewrite lookup_empty
      | rewrite set_if_some_other by discriminate
      | rewrite lookup_insert_ne by discriminate
      | match goal with
        | |- context [decide ?P] => destruct (decide P)
        | |- context [permissions ?a] => destruct (permissions a)
        end ];
    reflexivity.
Qed.

Lemma st_nlink_only_for_root_witness :
  match (_stat_from_info
           (MkInfo None
              (Some (Details None None None None None ResourceType.directory))
              None (Some "d")) 18).1 with
  | Returns result => result !! "st_nlink" = None
  | Raises _ => False
  end.
Proof.
  exact (st_nlink_only_for_root
           (MkInfo None
              (Some (Details None None None None None ResourceType.directory))
              None (Some "d")) 18 eq_refl).
Defined.

(** ** [getattr] and [readdir] *)

(** The synthesis always returns a record and leaves the umask as it
    found it. *)
Lemma _stat_from_info_returns (info : Info) (umask : Z) :
  exists attrs, _stat_from_info info umask = (Returns attrs, umask).
Proof.
  unfold _stat_from_info. destruct (ns_stat info) as [raw|]; eexists; reflexivity.
Qed.

Lemma stat_each_returns (infos : list Info) (umask : Z) :
  exists entries,
    stat_each infos umask = (Returns entries, umask)
    /\ Forall2 (fun info entry =>
                  exists attrs,
                    (_stat_from_info info umask).1 = Returns attrs
                    /\ entry = Entry (name info) attrs 0)
               infos entries.
Proof.
  induction infos as [|info rest (entries & E & F)].
  - exists []. split; [reflexivity|constructor].
  - destruct (_stat_from_info_returns info umask) as (attrs & Ha).
    exists (Entry (name info) attrs 0 :: entries). split.
    + cbn [stat_each]. rewrite bind_unfold, Ha, bind_unfold, E. reflexivity.
    + constructor; [|exact F]. exists attrs. now rewrite Ha.
Qed.

Section MetadataRuns.
Context {B H : Type} {PF : PosixFlags} {FP : FsPath} {BE : Backend B H}
        {BI : BackendInfo B}.

Lemma getattr_runs (path : string) (p : process B H) :
  getattr path p
  = match fs_getinfo path ["details"; "access"; "stat"; "link"]
                     (fs (proc_self p)) with
    | (Returns info, b') =>
      ((_stat_from_info info (proc_umask p)).1,
       Process (Adapter (descriptors (proc_self p)) b' (calls (proc_self p)))
               (proc_umask p))
    | (Raises e, b') =>
      (Raises (_ConvertFSErrors.__exit__ e),
       Process (Adapter (descriptors (proc_self p)) b' (calls (proc_self p)))
               (proc_umask p))
    end.
Proof.
  unfold getattr. rewrite convert_fs_errors_bind. unfold on_self, fs_call.
  destruct (fs_getinfo _ _ _) as [[info|e] b']; [|reflexivity].
  unfold convert_fs_errors, on_umask. cbn [proc_umask proc_self].
  destruct (_stat_from_info_returns info (proc_umask p)) as (attrs & ->).
  reflexivity.
Qed.

Lemma readdir_runs (path : string) (p : process B H) :
  readdir path p
  = match fs_scandir path ["basic"; "access"; "details"; "link"; "stat"]
                     (fs (proc_self p)) with
    | (Returns infos, b') =>
      (match (stat_each infos (proc_umask p)).1 with
       | Returns entries => Returns (Name "." :: Name ".." :: entries)
       | Raises e => Raises (_ConvertFSErrors.__exit__ e)
       end,
       Process (Adapter (descriptors (proc_self p)) b' (calls (proc_self p)))
               (proc_umask p))
    | (Raises e, b') =>
      (Raises (_ConvertFSErrors.__exit__ e),
       Process (Adapter (descriptors (proc_self p)) b' (calls (proc_self p)))
               (proc_umask p))
    end.
Proof.
  unfold readdir. rewrite convert_fs_errors_bind. unfold on_self, fs_call.
  destruct (fs_scandir _ _ _) as [[infos|e] b']; [|reflexivity].
  rewrite convert_fs_errors_bind. unfold on_umask. cbn [proc_umask proc_self].
  destruct (stat_each_returns infos (proc_umask p)) as (entries & -> & _).
  reflexivity.
Qed.

End MetadataRuns.

(** X15: [getattr] keeps the descriptor table, the call log and the
    umask; the backend is left as [getinfo] left it.  When [getinfo]
    raises, the translated exception is raised; when it returns, the
    result is the record synthesised under the umask of the process,
    which is the backend's own [stat] record whenever there is one. *)
Theorem getattr_synthesises_or_translates
  {B H : Type} {PF : PosixFlags} {FP : FsPath} {BE : Backend B H}
  {BI : BackendInfo B} (path : string) (p : process B H) :
  let out := getattr path p in
  let got := fs_getinfo path ["details"; "access"; "stat"; "link"]
                        (fs (proc_self p)) in
  descriptors (proc_self out.2) = descriptors (proc_self p)
  /\ calls (proc_self out.2) = calls (proc_self p)
  /\ proc_umask out.2 = proc_umask p
  /\ fs (proc_self out.2) = got.2
  /\ match got.1 with
     | Raises e => out.1 = Raises (_ConvertFSErrors.__exit__ e)
     | Returns info =>
       out.1 = (_stat_from_info info (proc_umask p)).1
       /\ forall raw, ns_stat info = Some raw -> out.1 = Returns raw
     end.
Proof.
  intros out got. subst out got. rewrite getattr_runs.
  destruct (fs_getinfo path ["details"; "access"; "stat"; "link"]
                       (fs (proc_self p))) as [[info|e] b'];
    cbn [fst snd proc_self proc_umask descriptors calls fs].
  - repeat split; try reflexivity.
    intros raw Hraw. unfold _stat_from_info. now rewrite Hraw.
  - repeat split; reflexivity.
Qed.

(** X16: [readdir] keeps the descriptor table, the call log and the
    umask.  When [scandir] raises, the translated exception is raised;
    when it returns, the listing is ["."], [".."] and then one entry per
    child, in the order of [scandir], made of the child's name, its
    synthesised record and offset 0. *)
Theorem readdir_lists_dots_then_children
  {B H : Type} {PF : PosixFlags} {FP : FsPath} {BE : Backend B H}
  {BI : BackendInfo B} (path : string) (p : process B H) :
  let out := readdir path p in
  let scanned := fs_scandir path ["basic"; "access"; "details"; "link"; "stat"]
                            (fs (proc_self p)) in
  descriptors (proc_self out.2) = descriptors (proc_self p)
  /\ calls (proc_self out.2) = calls (proc_self p)
  /\ proc_umask out.2 = proc_umask p
  /\ fs (proc_self out.2) = scanned.2
  /\ match scanned.1 with
     | Raises e => out.1 = Raises (_ConvertFSErrors.__exit__ e)
     | Returns infos =>
       exists entries,
         out.1 = Returns (Name "." :: Name ".." :: entries)
         /\ Forall2 (fun info entry =>
                       exists attrs,
                         (_stat_from_info info (proc_umask p)).1 = Returns attrs
                         /\ entry = Entry (name info) attrs 0)
                    infos entries
     end.
Proof.
  intros out scanned. subst out scanned. rewrite readdir_runs.
  destruct (fs_scandir path ["basic"; "access"; "details"; "link"; "stat"]
                       (fs (proc_self p))) as [[infos|e] b'];
    cbn [fst snd proc_self proc_umask descriptors calls fs].
  - repeat split; try reflexivity.
    destruct (stat_each_returns infos (proc_umask p)) as (entries & E & F).
    exists entries. rewrite E. split; [reflexivity|exact F].
  - repeat split; reflexivity.
Qed.

Example getattr_of_missing_resource :
  (getattr "/nope" (Process MemFS.start 18)).1
  = Raises (FuseOSError (Some ENOENT)).
Proof. reflexivity. Qed.

Example readdir_of_sample_directory :
  (readdir "/d" (Process MemFS.start 18)).1
  = Returns [Name "."; Name "..";
             Entry (Some "f") (<["st_mode" := S_IFREG]> {["st_size" := 5]}) 0].
Proof. vm_compute. reflexivity. Qed.

(** ** [destroy] *)

Section DestroyFacts.
Context {B H : Type} {PF : PosixFlags} {FP : FsPath} {BE : Backend B H}
        {BI : BackendInfo B}.

(** The loop over the handles: it closes them in order and stops at the
    first close that raises. *)
Lemma close_each_runs (handles : list H) (s : adapter B H) :
  descriptors (close_each handles s).2 = descriptors s
  /\ match (close_each handles s).1 with
     | Returns _ =>
       calls (close_each handles s).2
       = calls s ++ map (fun h => Ev (Cclose h) None) handles
     | Raises e =>
       exists closed h rest,
         handles = closed ++ h :: rest
         /\ calls (close_each handles s).2
            = calls s ++ map (fun h => Ev (Cclose h) None) closed
                      ++ [Ev (Cclose h) (Some e)]
     end.
Proof.
  revert s. induction handles as [|h rest IH]; intros s.
  - cbn. split; [reflexivity|]. now rewrite app_nil_r.
  - cbn [close_each]. rewrite bind_unfold. unfold invoke.
    destruct (stream_close h (fs s)) as [[[]|e] b'].
    + match goal with |- context [close_each rest ?s1] =>
        destruct (IH s1) as (D & C); destruct (close_each rest s1) as [[[]|e] s2]
      end; cbn [fst snd] in *.
      * split; [exact D|]. rewrite C. cbn. now rewrite <- app_assoc.
      * split; [exact D|]. destruct C as (closed & h' & rest' & -> & C).
        exists (h :: closed), h', rest'. split; [reflexivity|].
        rewrite C. cbn. now rewrite <- !app_assoc.
    + cbn. split; [reflexivity|]. exists [], h, rest. split; reflexivity.
Qed.

Lemma values_of_keys (d : gmap nat H) (l : list (nat * H)) :
  (forall kv, kv ∈ l -> d !! kv.1 = Some kv.2) ->
  omap (fun fd => d !! fd) l.*1 = l.*2.
Proof.
  induction l as [|[k v] l IH]; intros Hl; [reflexivity|].
  assert (Hk : d !! k = Some v) by exact (Hl (k, v) (list_elem_of_here _ _)).
  cbn. rewrite Hk. cbn. f_equal.
  apply IH. intros kv Hkv. apply Hl. now apply list_elem_of_further.
Qed.

Lemma handles_of_keys (d : gmap nat H) (order : list nat) :
  order ≡ₚ (map_to_list d).*1 ->
  omap (fun fd => d !! fd) order ≡ₚ (map_to_list d).*2.
Proof.
  intros ->. rewrite values_of_keys; [reflexivity|].
  intros [k v] Hkv. now apply elem_of_map_to_list.
Qed.

Lemma destroy_runs (order : list nat) (path : string) (s : adapter B H) :
  destroy order path s
  = match close_each (omap (fun fd => descriptors s !! fd) order) s with
    | (Returns _, s1) =>
      match fs_close (fs s1) with
      | (Returns a, b2) => (Returns a, Adapter ∅ b2 (calls s1))
      | (Raises e, b2) =>
        (Raises (_ConvertFSErrors.__exit__ e), Adapter ∅ b2 (calls s1))
      end
    | (Raises e, s1) => (Raises (_ConvertFSErrors.__exit__ e), s1)
    end.
Proof.
  unfold destroy. rewrite convert_fs_errors_bind.
  unfold descriptors_values at 1. rewrite convert_fs_errors_bind.
  destruct (close_each _ s) as [[[]|e] s1]; [|reflexivity].
  rewrite convert_fs_errors_bind. unfold descriptors_clear at 1.
  unfold convert_fs_errors, fs_call. cbn [fs descriptors calls].
  destruct (fs_close (fs s1)) as [[a|e] b2]; reflexivity.
Qed.

End DestroyFacts.

(** X17: [destroy], when every stream closes, for any order in which the
    table yields its entries: each bound stream has been closed once and
    nothing else was called on a stream; the table was emptied before the
    backend was closed, and stays empty whether the backend's [close]
    returns or raises; the outcome is that of the backend's [close]. *)
Theorem destroy_closes_streams_then_backend
  {B H : Type} {PF : PosixFlags} {FP : FsPath} {BE : Backend B H}
  {BI : BackendInfo B}
  (order : list nat) (path : string) (s s1 : adapter B H) :
  order ≡ₚ (map_to_list (descriptors s)).*1 ->
  close_each (omap (fun fd => descriptors s !! fd) order) s = (Returns tt, s1) ->
  exists handles,
    handles ≡ₚ (map_to_list (descriptors s)).*2
    /\ calls s1 = calls s ++ map (fun h => Ev (Cclose h) None) handles
    /\ descriptors (destroy order path s).2 = ∅
    /\ fs (destroy order path s).2 = (fs_close (fs s1)).2
    /\ calls (destroy order path s).2 = calls s1
    /\ (destroy order path s).1
       = match (fs_close (fs s1)).1 with
         | Returns a => Returns a
         | Raises e => Raises (_ConvertFSErrors.__exit__ e)
         end.
Proof.
  intros Horder Hclose.
  exists (omap (fun fd => descriptors s !! fd) order).
  split; [now apply handles_of_keys|].
  destruct (close_each_runs (omap (fun fd => descriptors s !! fd) order) s)
    as (_ & Hcalls).
  rewrite Hclose in Hcalls. cbn [fst snd] in Hcalls.
  split; [exact Hcalls|].
  rewrite destroy_runs, Hclose.
  destruct (fs_close (fs s1)) as [[a|e] b2]; cbn; auto.
Qed.

(** Two open descriptors on the sample filesystem. *)
Lemma destroy_closes_streams_then_backend_witness :
  let s := (open_each [("/d/f", O_RDONLY); ("/d/f", O_RDWR)] MemFS.start).2 in
  (destroy [1; 0]%nat "/" s).1 = Returns tt
  /\ descriptors (destroy [1; 0]%nat "/" s).2 = ∅
  /\ MemFS.streams (fs (destroy [1; 0]%nat "/" s).2) = ∅.
Proof.
  intros s.
  destruct (destroy_closes_streams_then_backend (PF := linux_flags)
              [1; 0]%nat "/" s
              (close_each (omap (fun fd => descriptors s !! fd) [1; 0]%nat) s).2)
    as (handles & _ & _ & Hd & Hf & _ & Hr).
  - vm_compute. reflexivity.
  - vm_compute. reflexivity.
  - split; [rewrite Hr; vm_compute; reflexivity|].
    split; [exact Hd|]. rewrite Hf. vm_compute. reflexivity.
Defined.



(** ** [open], [read] and [truncate], further *)

(** X19: with both access-mode bits set, no branch of [open] binds
    [mode]: the call raises [UnboundLocalError], which the translator
    lets through as it is, before any backend call; the table is
    unchanged. *)
Theorem open_with_both_access_bits
  {B H : Type} {PF : PosixFlags} {FP : FsPath} {BE : Backend B H}
  (path : string) (flags : Z) (s : adapter B H) :
  Z.land flags O_ACCMODE = 3 ->
  open path flags s = (Raises UnboundLocalError_exc, s)
  /\ isinstance UnboundLocalError_exc [FuseOSErrorClass; OSErrorClass] = false.
Proof.
  intros Hacc. split; [|reflexivity].
  unfold open. rewrite convert_fs_errors_bind.
  destruct (_getfd_returns s) as (n & -> & _).
  rewrite convert_fs_errors_bind.
  unfold open_mode. rewrite Hacc. reflexivity.
Qed.

Lemma open_with_both_access_bits_witness :
  open "/d/f" (Z.lor 3 O_APPEND) MemFS.start
  = (Raises UnboundLocalError_exc, MemFS.start).
Proof.
  apply (open_with_both_access_bits (PF := linux_flags)
           "/d/f" (Z.lor 3 O_APPEND) MemFS.start).
  reflexivity.
Defined.

(** X20 on the sample filesystem: [read] on an append-only stream. *)
Lemma read_not_readable_witness :
  let s := (open "/d/f" (Z.lor O_WRONLY O_APPEND) MemFS.start).2 in
  read "/d/f" 2 3 0%nat s
  = (Raises (FuseOSError (Some EINVAL)),
     Adapter (descriptors s) (fs s) (calls s ++ [Ev (Creadable 0%nat) None])).
Proof.
  intros s.
  apply (read_not_readable (PF := linux_flags) "/d/f" 2 3 0%nat s 0%nat (fs s)).
  - vm_compute. reflexivity.
  - vm_compute. reflexivity.
Defined.

(** X21: [truncate] with a descriptor other than 0 that is bound works
    on the stream of that descriptor: it opens nothing and closes
    nothing, every call it makes is one of [writable], [seek(0)],
    [truncate(length)] on that stream, and the table is unchanged; a
    stream that is not writable gives [EINVAL]. *)
Theorem truncate_with_descriptor
  {B H : Type} {PF : PosixFlags} {FP : FsPath} {BE : Backend B H}
  (path : string) (length : Z) (n : nat) (s : adapter B H) (h : H) :
  descriptors s !! S n = Some h ->
  let out := truncate path length (Some (S n)) s in
  descriptors out.2 = descriptors s
  /\ (exists t, calls out.2 = calls s ++ t
                /\ Forall (truncating_call h length) t)
  /\ (forall b2, stream_writable h (fs s) = (Returns false, b2) ->
                 out.1 = Raises (FuseOSError (Some EINVAL)))
  /\ (forall b2 b3 b4 p k,
         stream_writable h (fs s) = (Returns true, b2) ->
         stream_seek h 0 b2 = (Returns p, b3) ->
         stream_truncate h length b3 = (Returns k, b4) ->
         out.1 = Returns tt /\ fs out.2 = b4).
Proof.
  intros Hh out.
  assert (Hout : out = convert_fs_errors
                         (try_finally (truncate_try h length) (ret tt)) s).
  { subst out. unfold truncate. rewrite convert_fs_errors_bind, ret_unfold.
    rewrite convert_fs_errors_bind. unfold descriptors_getitem. now rewrite Hh. }
  assert (Hstate : out.2 = (truncate_try h length s).2).
  { rewrite Hout, convert_fs_errors_state, try_finally_state. reflexivity. }
  destruct (truncate_try_frame h length s) as (Hd & t & Ht & Hon).
  split; [now rewrite Hstate|]. split.
  { exists t. split; [now rewrite Hstate|exact Hon]. }
  split.
  - intros b2 Hw.
    rewrite Hout, convert_fs_errors_result, try_finally_result.
    now rewrite (truncate_try_not_writable _ length _ _ Hw).
  - intros b2 b3 b4 p k Hw Hseek Htr. split.
    + rewrite Hout, convert_fs_errors_result, try_finally_result.
      now rewrite (truncate_try_writable _ length _ _ _ _ _ _ Hw Hseek Htr).
    + rewrite Hstate.
      now rewrite (truncate_try_writable _ length _ _ _ _ _ _ Hw Hseek Htr).
Qed.

(** Descriptor 1 of the sample filesystem, opened read-only. *)
Lemma truncate_with_descriptor_witness :
  let s := (open_each [("/d/f", O_RDWR); ("/d/f", O_RDONLY)] MemFS.start).2 in
  (truncate "/d/f" 0 (Some 1%nat) s).1 = Raises (FuseOSError (Some EINVAL))
  /\ descriptors (truncate "/d/f" 0 (Some 1%nat) s).2 = descriptors s.
Proof.
  intros s.
  destruct (truncate_with_descriptor (PF := linux_flags) "/d/f" 0 0%nat s 1%nat)
    as (Hd & _ & Hro & _).
  - vm_compute. reflexivity.
  - split; [|exact Hd]. apply (Hro (fs s)). vm_compute. reflexivity.
Defined.
